(** * docker-img-version: the semantic-version gate of [build.py]

    A shallow embedding of [src/build.py]: the [SemVersion] class
    ([is_valid], [parse], [validate_semver_change]), the version record
    ([SemVerFile]) and the orchestration in [main], followed by the
    properties of the specification that concern them.

    Modelling conventions
    - A Python [str] is a [string]; every [ascii] stands for the code point
      of the same number, so the development covers the texts whose code
      points are below 256, and only those.  In that range the class [\d] of
      Python's [re] and the digits accepted by [int] are exactly
      ['0'..'9']; decimal digits of other scripts, which both accept, lie
      outside it.  A statement about every valid text is therefore a
      statement about every valid text of that range.
    - A Python [int] is a [Z]: integers are unbounded.  [int] applied to a
      text refuses, with [ValueError], a literal of more than 4300 digits,
      the interpreter's default for [sys.int_max_str_digits].
    - The run starts from the command line as [argparse] delivers it, with
      both required flags present.
    - [exit(1)] after a [print] is the outcome [Exit] carrying which message
      was printed; an uncaught exception is the outcome [Raise].
    - [World] gives every step that leaves the program a result: a file is
      there or not, a tool returns a code.  Faults of the environment itself
      (a missing executable or module, a file that cannot be opened, decoded
      or written) are not modelled, so [Raise] carries only the exceptions
      the steps of the program give rise to, and nothing here says that no
      other exception can end a run.
    - The version record is the only piece of file-system state the program
      writes; it is threaded explicitly through [main]. *)

From Stdlib Require Import ZArith Bool List Ascii String Lia.
Import ListNotations.

Open Scope string_scope.
Open Scope Z_scope.

(** ** Characters *)

Definition code (c : ascii) : Z := Z.of_N (N_of_ascii c).

Definition in_range (lo hi c : ascii) : bool :=
  (code lo <=? code c) && (code c <=? code hi).

(** The ten digits ['0'..'9']: below code point 256 they are the characters
    [\d] matches and the ones [int] reads as digits. *)
Definition is_digit (c : ascii) : bool := in_range "0" "9" c.

(** ** Regular expressions, as used by [re.match] *)

Module Re.

Inductive regex : Type :=
| Void
| Eps
| Lit (c : ascii)           (* a literal character, such as [\.] or [0] *)
| Range (lo hi : ascii)     (* a class [[lo-hi]] *)
| Digit                     (* [\d] *)
| Seq (r1 r2 : regex)
| Alt (r1 r2 : regex)
| Star (r : regex).

(** The language of an expression. *)
Inductive Matches : regex -> string -> Prop :=
| MEps : Matches Eps ""
| MLit c : Matches (Lit c) (String c "")
| MRange lo hi c : in_range lo hi c = true -> Matches (Range lo hi) (String c "")
| MDigit c : is_digit c = true -> Matches Digit (String c "")
| MSeq r1 r2 s1 s2 : Matches r1 s1 -> Matches r2 s2 -> Matches (Seq r1 r2) (s1 ++ s2)
| MAltL r1 r2 s : Matches r1 s -> Matches (Alt r1 r2) s
| MAltR r1 r2 s : Matches r2 s -> Matches (Alt r1 r2) s
| MStar0 r : Matches (Star r) ""
| MStarS r s1 s2 : Matches r s1 -> Matches (Star r) s2 -> Matches (Star r) (s1 ++ s2).

Fixpoint nullable (r : regex) : bool :=
  match r with
  | Void => false
  | Eps => true
  | Lit _ => false
  | Range _ _ => false
  | Digit => false
  | Seq r1 r2 => nullable r1 && nullable r2
  | Alt r1 r2 => nullable r1 || nullable r2
  | Star _ => true
  end.

Fixpoint deriv (a : ascii) (r : regex) : regex :=
  match r with
  | Void => Void
  | Eps => Void
  | Lit c => if Ascii.eqb a c then Eps else Void
  | Range lo hi => if in_range lo hi a then Eps else Void
  | Digit => if is_digit a then Eps else Void
  | Seq r1 r2 =>
      if nullable r1
      then Alt (Seq (deriv a r1) r2) (deriv a r2)
      else Seq (deriv a r1) r2
  | Alt r1 r2 => Alt (deriv a r1) (deriv a r2)
  | Star r1 => Seq (deriv a r1) (Star r1)
  end.

(** Does the whole of [s] belong to the language of [r]? *)
Fixpoint fullmatch (r : regex) (s : string) : bool :=
  match s with
  | "" => nullable r
  | String a s' => fullmatch (deriv a r) s'
  end.

(** The text without its last character, when that character is a newline. *)
Fixpoint chomp (s : string) : option string :=
  match s with
  | "" => None
  | String c "" => if Ascii.eqb c "010" then Some "" else None
  | String c s' => option_map (String c) (chomp s')
  end.

(** [re.match("^r$", s) is not None].  [re.match] tries the pattern at
    position 0 only, where [^] holds; without [re.MULTILINE], [$] holds at
    the end of the text and also just before a newline that is the last
    character of the text.  The engine backtracks over every alternative, so
    a match exists iff [r] matches the text up to one of those positions. *)
Definition match_anchored (r : regex) (s : string) : bool :=
  fullmatch r s ||
  match chomp s with
  | Some s' => fullmatch r s'
  | None => false
  end.

End Re.

Import Re.

(** ** Built-ins of the language used by the program *)

(** [str.split(sep)] for a one-character separator: one more piece than there
    are separators, empty pieces included. *)
Fixpoint split (sep : ascii) (s : string) : list string :=
  match s with
  | "" => [""]
  | String c s' =>
      if Ascii.eqb c sep then "" :: split sep s'
      else match split sep s' with
           | piece :: pieces => String c piece :: pieces
           | [] => [String c ""]
           end
  end.

(** White space as [int] strips it on code points below 256: TAB..CR and
    the space among the ASCII characters, NEL and the no-break space above
    them.  The separators FS..US are not stripped. *)
Definition is_space (c : ascii) : bool :=
  let n := code c in
  ((9 <=? n) && (n <=? 13)) || (n =? 32) || (n =? 133) || (n =? 160).

Fixpoint lstrip (s : string) : string :=
  match s with
  | "" => ""
  | String c s' => if is_space c then lstrip s' else s
  end.

Fixpoint rstrip (s : string) : string :=
  match s with
  | "" => ""
  | String c s' =>
      match rstrip s' with
      | "" => if is_space c then "" else String c ""
      | t => String c t
      end
  end.

Definition strip (s : string) : string := rstrip (lstrip s).

Definition digit_value (c : ascii) : Z := code c - 48.

(** The digits of a decimal literal, most significant first; single
    underscores are allowed between two digits.  [after_digit] tells whether
    the previous character was a digit. *)
Fixpoint digits (acc : Z) (after_digit : bool) (s : string) : option Z :=
  match s with
  | "" => if after_digit then Some acc else None
  | String c s' =>
      if is_digit c then digits (10 * acc + digit_value c) true s'
      else if Ascii.eqb c "_" && after_digit then digits acc false s'
      else None
  end.

(** How many digits a literal holds; underscores do not count. *)
Fixpoint count_digits (s : string) : Z :=
  match s with
  | "" => 0
  | String c s' => (if is_digit c then 1 else 0) + count_digits s'
  end.

(** The default of [sys.int_max_str_digits]. *)
Definition int_max_str_digits : Z := 4300.

(** The literal after the sign: refused when it holds more digits than the
    limit, read otherwise. *)
Definition int_literal (t : string) : option Z :=
  if int_max_str_digits <? count_digits t then None else digits 0 false t.

(** [int(s)] in base 10; [None] stands for [ValueError]. *)
Definition py_int (s : string) : option Z :=
  match strip s with
  | String "-" t => option_map Z.opp (int_literal t)
  | String "+" t => int_literal t
  | t => int_literal t
  end.

(** [f.readlines()] of a text file opened with the default universal
    newlines: a carriage return, alone or followed by a line feed, ends a
    line too, and every line end is delivered as one line feed.  [cur] is the
    line being read, reversed. *)
Fixpoint rev_append_string (r : list ascii) (s : string) : string :=
  match r with
  | [] => s
  | c :: r' => rev_append_string r' (String c s)
  end.

Fixpoint readlines_from (cur : list ascii) (s : string) : list string :=
  match s with
  | "" => match cur with [] => [] | _ => [rev_append_string cur ""] end
  | String "013" (String "010" s') =>
      rev_append_string cur (String "010" "") :: readlines_from [] s'
  | String "013" s' =>
      rev_append_string cur (String "010" "") :: readlines_from [] s'
  | String "010" s' =>
      rev_append_string cur (String "010" "") :: readlines_from [] s'
  | String c s' => readlines_from (c :: cur) s'
  end.

Definition readlines (content : string) : list string := readlines_from [] content.

(** ** Outcomes of a run *)

(** [version_increase_types]. *)
Inductive BumpKind : Type := major | minor | patch.

Definition bump_name (b : BumpKind) : string :=
  match b with
  | major => "major"
  | minor => "minor"
  | patch => "patch"
  end.

(** What the program printed just before [exit(1)]. *)
Inductive Message : Type :=
| InvalidVersionArg            (* invalid arg value for `version`, ... *)
| NotFound (ffor : string)     (* for {ffor} not found in path {path} *)
| InvalidVersionTxtFormat      (* invalid version.txt format *)
| InvalidVersionTxtSemVer      (* invalid version.txt sem-ver specified *)
| InvalidTagSemVer             (* invalid sem-ver specified as cli -t or --tag argument *)
| InvalidSemVerFormat          (* invalid sem-ver format *)
| VersionsMatching             (* current and new sem-versions are matching *)
| InvalidChange (b : BumpKind) (* invalid {b} sem-ver change *)
| InvalidIncrease (current new : string)
                               (* invalid version increase from `{current}` to `{new}` *)
| NoCredentials                (* dockerhub credentials not specified *)
| FailedToLogin                (* failed to login to dockerhub *)
| FailedToBuildImage.          (* failed to build image: printed by build and by push *)

(** The exceptions the steps of the program give rise to: [ValueError] of
    [int], [CalledProcessError] of [subprocess.run] with [check=True]. *)
Inductive Exception : Type :=
| ValueError
| CalledProcessError.

Inductive outcome (A : Type) : Type :=
| Done (a : A)
| Exit (m : Message)
| Raise (e : Exception).

Arguments Done {A} a.
Arguments Exit {A} m.
Arguments Raise {A} e.

Definition bind {A B : Type} (x : outcome A) (k : A -> outcome B) : outcome B :=
  match x with
  | Done a => k a
  | Exit m => Exit m
  | Raise e => Raise e
  end.

Declare Scope outcome_scope.
Delimit Scope outcome_scope with outcome.
Notation "x <- c ;; k" := (bind c (fun x => k))
  (at level 61, c at next level, right associativity) : outcome_scope.
Notation "' p <- c ;; k" := (bind c (fun x => match x with p => k end))
  (at level 61, p pattern, c at next level, right associativity) : outcome_scope.
Open Scope outcome_scope.

(** ** [class CmdArgs], [class SemVersion] *)

Record CmdArgs : Type := { tag : string; version : string }.

Record SemVersion : Type := { raw : string }.

(** One group of the pattern: the character 0, or one of 1..9 followed by
    any number of [\d]. *)
Definition component_re : regex :=
  Alt (Lit "0") (Seq (Range "1" "9") (Star Digit)).

(** The pattern of [is_valid] between its anchors: three groups separated
    by escaped dots. *)
Definition semver_re : regex :=
  Seq component_re (Seq (Lit ".") (Seq component_re (Seq (Lit ".") component_re))).

Definition is_valid (self : SemVersion) : bool :=
  match_anchored semver_re (raw self).

Definition parse (self : SemVersion) : outcome (Z * Z * Z) :=
  match split "." (raw self) with
  | [p0; p1; p2] =>
      match py_int p0 with
      | None => Raise ValueError
      | Some a =>
          match py_int p1 with
          | None => Raise ValueError
          | Some b =>
              match py_int p2 with
              | None => Raise ValueError
              | Some c => Done (a, b, c)
              end
          end
      end
  | _ => Exit InvalidSemVerFormat
  end.

(** The three [if] statements run one after the other on the pair
    [(cold, cnew)], which starts as [(0, 0)].  The test of the [patch] branch
    is the one of the source, [cmaj == nmaj and cmin == cmin]. *)
Definition validate_semver_change
  (current_version new_version : SemVersion) (args : CmdArgs) : outcome unit :=
  if (raw current_version =? raw new_version)%string then Exit VersionsMatching
  else
    '(cmaj, cmin, cpatch) <- parse current_version ;;
    '(nmaj, nmin, npatch) <- parse new_version ;;
    let cold := 0 in
    let cnew := 0 in
    '(cold, cnew) <-
      (if (version args =? "patch")%string then
         if negb ((cmaj =? nmaj) && (cmin =? cmin)) then Exit (InvalidChange patch)
         else Done (cpatch, npatch)
       else Done (cold, cnew)) ;;
    '(cold, cnew) <-
      (if (version args =? "minor")%string then
         if negb ((cmaj =? nmaj) && (npatch =? 0)) then Exit (InvalidChange minor)
         else Done (cmin, nmin)
       else Done (cold, cnew)) ;;
    '(cold, cnew) <-
      (if (version args =? "major")%string then
         if negb ((cmin =? 0) && (npatch =? 0)) then Exit (InvalidChange major)
         else Done (cmaj, nmaj)
       else Done (cold, cnew)) ;;
    if negb (cold + 1 =? cnew)
    then Exit (InvalidIncrease (raw current_version) (raw new_version))
    else Done tt.

(** ** The world around the program *)

Record DockerhubCreds : Type := { id : string; password : string }.

(** The paths of [StaticConfig], each with the name ([ffor]) it is looked up
    under. *)
Inductive RelPath : Type := DockerfilePath | ProjectRoot | SemverFile | DotenvFile.

Definition ffor (p : RelPath) : string :=
  match p with
  | DockerfilePath => "dockerfile path"
  | ProjectRoot => "project root"
  | SemverFile => "sem-ver"
  | DotenvFile => "dot-env"
  end.

(** The version record: the content of [version.txt], [None] when the file
    does not exist. *)
Record Store : Type := { version_txt : option string }.

(** Everything the program asks of its environment and does not decide
    itself: the parsed command line, the other files, the credentials in the
    process environment once [build.env] is loaded, and the return codes of
    the container tool. *)
Record World : Type := {
  argv : CmdArgs;
  dockerfile_exists : bool;
  project_root_exists : bool;
  dotenv_exists : bool;
  DOCKERHUB_ID : option string;
  DOCKERHUB_PW : option string;
  docker_login : DockerhubCreds -> Z;
  docker_build : string -> Z;
  docker_image_ls : Z;
  docker_push : string -> Z
}.

(** A step of the program: it reads and may replace the version record. *)
Definition Prog (A : Type) : Type := Store -> outcome A * Store.

Definition ret {A : Type} (a : A) : Prog A := fun st => (Done a, st).

Definition lift {A : Type} (x : outcome A) : Prog A := fun st => (x, st).

Definition exit {A : Type} (m : Message) : Prog A := lift (Exit m).

Definition bindP {A B : Type} (c : Prog A) (k : A -> Prog B) : Prog B :=
  fun st =>
    match c st with
    | (Done a, st') => k a st'
    | (Exit m, st') => (Exit m, st')
    | (Raise e, st') => (Raise e, st')
    end.

Declare Scope prog_scope.
Delimit Scope prog_scope with prog.
Notation "x <- c ;; k" := (bindP c (fun x => k))
  (at level 61, c at next level, right associativity) : prog_scope.
Notation "c ;; k" := (bindP c (fun _ => k))
  (at level 61, right associativity) : prog_scope.

Definition path_exists (w : World) (p : RelPath) (st : Store) : bool :=
  match p with
  | DockerfilePath => dockerfile_exists w
  | ProjectRoot => project_root_exists w
  | DotenvFile => dotenv_exists w
  | SemverFile => match version_txt st with Some _ => true | None => false end
  end.

Definition _get_rel_file_path (w : World) (p : RelPath) : Prog RelPath :=
  fun st =>
    if negb (path_exists w p st) then (Exit (NotFound (ffor p)), st)
    else (Done p, st).

Module StaticConfig.
Definition dockerfile_path (w : World) : Prog RelPath := _get_rel_file_path w DockerfilePath.
Definition build_context (w : World) : Prog RelPath := _get_rel_file_path w ProjectRoot.
Definition image_name : string := "dock-img".
Definition semver_file (w : World) : Prog RelPath := _get_rel_file_path w SemverFile.
Definition dotenv_file (w : World) : Prog RelPath := _get_rel_file_path w DotenvFile.
End StaticConfig.

Module Dotenv.
Definition load_dotenv (w : World) : Prog unit :=
  (_ <- StaticConfig.dotenv_file w ;; ret tt)%prog.
End Dotenv.

Definition version_increase_types : list string := ["major"; "minor"; "patch"].

Definition get_cmd_args (w : World) : Prog CmdArgs :=
  let args := argv w in
  if negb (existsb (String.eqb (version args)) version_increase_types)
  then exit InvalidVersionArg
  else ret {| tag := tag args; version := version args |}.

Module SemVerFile.

(** The file is opened after [semver_file] found it, so the empty default
    for a missing record is never read. *)
Definition get_current_sem_ver (w : World) : Prog SemVersion :=
  (_ <- StaticConfig.semver_file w ;;
   fun st =>
     let lines := readlines (match version_txt st with Some c => c | None => "" end) in
     match lines with
     | [version] => (Done {| raw := version |}, st)
     | _ => (Exit InvalidVersionTxtFormat, st)
     end)%prog.

(** [open(path, 'w')] followed by [f.write(new_version.raw)]: the record
    becomes exactly the raw text. *)
Definition overwrite_version (w : World) (new_version : SemVersion) : Prog unit :=
  if negb (is_valid new_version) then exit InvalidSemVerFormat
  else
    (_ <- StaticConfig.semver_file w ;;
     fun _ => (Done tt, {| version_txt := Some (raw new_version) |}))%prog.

End SemVerFile.

Definition get_dockerhub_creds (w : World) : Prog DockerhubCreds :=
  match DOCKERHUB_ID w, DOCKERHUB_PW w with
  | Some i, Some p => ret {| id := i; password := p |}
  | _, _ => exit NoCredentials
  end.

Definition _get_full_image_name (creds : DockerhubCreds) (args : CmdArgs) : string :=
  id creds ++ "/" ++ StaticConfig.image_name ++ ":" ++ tag args.

Module Terminal.

Definition login (w : World) (creds : DockerhubCreds) : Prog unit :=
  if negb (docker_login w creds =? 0) then exit FailedToLogin else ret tt.

Definition build (w : World) (creds : DockerhubCreds) (args : CmdArgs) : Prog unit :=
  let image := _get_full_image_name creds args in
  (_ <- StaticConfig.dockerfile_path w ;;
   _ <- StaticConfig.build_context w ;;
   if negb (docker_build w image =? 0) then exit FailedToBuildImage else ret tt)%prog.

(** [check=True] turns a failing [docker image ls] into an exception; the
    result of [grep] is printed and not inspected. *)
Definition show_image (w : World) : Prog unit :=
  if negb (docker_image_ls w =? 0) then lift (Raise CalledProcessError) else ret tt.

Definition push (w : World) (creds : DockerhubCreds) (args : CmdArgs) : Prog unit :=
  let image := _get_full_image_name creds args in
  if negb (docker_push w image =? 0) then exit FailedToBuildImage else ret tt.

End Terminal.

Definition main (w : World) : Prog unit :=
  (args <- get_cmd_args w ;;
   current_version <- SemVerFile.get_current_sem_ver w ;;
   (if negb (is_valid current_version) then exit InvalidVersionTxtSemVer else ret tt) ;;
   let new_version := {| raw := tag args |} in
   (if negb (is_valid new_version) then exit InvalidTagSemVer else ret tt) ;;
   lift (validate_semver_change current_version new_version args) ;;
   Dotenv.load_dotenv w ;;
   dockerhub_creds <- get_dockerhub_creds w ;;
   Terminal.login w dockerhub_creds ;;
   Terminal.build w dockerhub_creds args ;;
   Terminal.show_image w ;;
   Terminal.push w dockerhub_creds args ;;
   SemVerFile.overwrite_version w new_version)%prog.

(** ** The vocabulary of the specification *)

Fixpoint all_digits (s : string) : bool :=
  match s with
  | "" => true
  | String c s' => is_digit c && all_digits s'
  end.

(** A component in textual form: exactly ["0"], or a digit other than zero
    followed by digits. *)
Definition numeric_component (s : string) : bool :=
  match s with
  | "" => false
  | String c s' =>
      if Ascii.eqb c "0" then (s' =? "")%string
      else in_range "1" "9" c && all_digits s'
  end.

(** The text matches the pattern as a whole: three components separated by
    dots and nothing else. *)
Definition semver_text (s : string) : Prop :=
  exists a b c,
    numeric_component a = true /\ numeric_component b = true /\
    numeric_component c = true /\ s = a ++ "." ++ b ++ "." ++ c.

Definition newline : string := String "010" "".

(** The text is one the validity gate lets through: a whole-pattern match,
    possibly followed by one newline. *)
Definition accepted_text (s : string) : Prop :=
  semver_text s \/ exists t, s = t ++ newline /\ semver_text t.

(** The number a run of decimal digits denotes, continuing from [acc]. *)
Fixpoint decimal (acc : Z) (s : string) : Z :=
  match s with
  | "" => acc
  | String c s' => decimal (10 * acc + digit_value c) s'
  end.

Fixpoint has_char (x : ascii) (s : string) : bool :=
  match s with
  | "" => false
  | String c s' => Ascii.eqb c x || has_char x s'
  end.

(** A run of digits short enough for [int]: at most [int_max_str_digits]
    of them. *)
Definition fits (s : string) : bool :=
  Z.of_nat (String.length s) <=? int_max_str_digits.

Fixpoint zeros (k : nat) : string :=
  match k with
  | O => ""
  | S k' => String "0" (zeros k')
  end.

(** Modelled from the spec: the bound called the platform integer limit is
    no constant of the program; it is taken as the largest signed 64-bit
    integer. *)
Definition platform_int_max : Z := 2 ^ 63 - 1.

(** The preconditions of each bump kind, in the words of the specification,
    on the components of the current and of the proposed version. *)
Definition spec_preconditions (b : BumpKind) (cur new : Z * Z * Z) : Prop :=
  let '(cmaj, cmin, cpatch) := cur in
  let '(nmaj, nmin, npatch) := new in
  match b with
  | patch => cmaj = nmaj /\ cmin = nmin
  | minor => cmaj = nmaj /\ npatch = 0
  | major => cmin = 0 /\ npatch = 0
  end.

(** The pair (old, new) that the increment check compares. *)
Definition compared (b : BumpKind) (cur new : Z * Z * Z) : Z * Z :=
  let '(cmaj, cmin, cpatch) := cur in
  let '(nmaj, nmin, npatch) := new in
  match b with
  | patch => (cpatch, npatch)
  | minor => (cmin, nmin)
  | major => (cmaj, nmaj)
  end.

Definition v (s : string) : SemVersion := {| raw := s |}.

Definition bump_args (new : SemVersion) (b : BumpKind) : CmdArgs :=
  {| tag := raw new; version := bump_name b |}.

(** A world in which every file is present, the credentials are set, and the
    container tool succeeds except that [docker push] returns [push_rc]. *)
Definition sample_world (t : string) (b : BumpKind) (push_rc : Z) : World :=
  {| argv := {| tag := t; version := bump_name b |};
     dockerfile_exists := true;
     project_root_exists := true;
     dotenv_exists := true;
     DOCKERHUB_ID := Some "acc";
     DOCKERHUB_PW := Some "secret";
     docker_login := fun _ => 0;
     docker_build := fun _ => 0;
     docker_image_ls := 0;
     docker_push := fun _ => push_rc |}.

(** The gates a run goes through before it commits: the declared bump kind
    is known, the record holds one line, record and tag are valid, the
    transition is legal, the credentials are there and every step of the
    container tool returns 0. *)
Definition gates_passed (w : World) (st : Store) : Prop :=
  exists content current i p,
    existsb (String.eqb (version (argv w))) version_increase_types = true /\
    version_txt st = Some content /\
    readlines content = [current] /\
    is_valid (v current) = true /\
    is_valid (v (tag (argv w))) = true /\
    validate_semver_change (v current) (v (tag (argv w))) (argv w) = Done tt /\
    dotenv_exists w = true /\
    DOCKERHUB_ID w = Some i /\ DOCKERHUB_PW w = Some p /\
    docker_login w {| id := i; password := p |} = 0 /\
    dockerfile_exists w = true /\ project_root_exists w = true /\
    docker_build w (_get_full_image_name {| id := i; password := p |} (argv w)) = 0 /\
    docker_image_ls w = 0 /\
    docker_push w (_get_full_image_name {| id := i; password := p |} (argv w)) = 0.

(** How many times a character occurs in a text. *)
Fixpoint count_char (x : ascii) (s : string) : nat :=
  match s with
  | "" => O
  | String c s' => if Ascii.eqb c x then S (count_char x s') else count_char x s'
  end.

(** The order of versions: by major, then minor, then patch. *)
Definition version_lt (a b : Z * Z * Z) : Prop :=
  let '(amaj, amin, apatch) := a in
  let '(bmaj, bmin, bpatch) := b in
  amaj < bmaj \/ (amaj = bmaj /\ (amin < bmin \/ (amin = bmin /\ apatch < bpatch))).

Definition carriage_return : string := String "013" "".

(** The ways a text file may end its only line: not at all, with a line
    feed, with a carriage return, or with both. *)
Definition line_end (e : string) : Prop :=
  e = "" \/ e = newline \/ e = carriage_return \/ e = carriage_return ++ newline.

(** What [readlines] delivers for a line end. *)
Definition delivered (e : string) : string :=
  match e with
  | "" => ""
  | _ => newline
  end.

(** * Properties *)

(** ** Regular expressions: the matcher decides the language *)

Section RegexFacts.

Lemma append_empty_r (s : string) : s ++ "" = s.
Proof. induction s as [|c s IH]; simpl; [reflexivity | now rewrite IH]. Qed.

Lemma append_assoc (s1 s2 s3 : string) : (s1 ++ s2) ++ s3 = s1 ++ (s2 ++ s3).
Proof. induction s1 as [|c s1 IH]; simpl; [reflexivity | now rewrite IH]. Qed.

Lemma append_eq_empty (s1 s2 : string) : s1 ++ s2 = "" -> s1 = "" /\ s2 = "".
Proof. destruct s1; simpl; [auto | discriminate]. Qed.

Lemma nullable_sound (r : regex) : nullable r = true -> Matches r "".
Proof.
  induction r; simpl; intros H; try discriminate.
  - constructor.
  - apply andb_true_iff in H as [H1 H2].
    change "" with ("" ++ ""). constructor; auto.
  - apply orb_true_iff in H as [H|H]; [apply MAltL | apply MAltR]; auto.
  - constructor.
Qed.

Lemma nullable_complete (r : regex) (s : string) :
  Matches r s -> s = "" -> nullable r = true.
Proof.
  induction 1; intros E; simpl; try discriminate; try reflexivity.
  - apply append_eq_empty in E as [-> ->]. now rewrite IHMatches1, IHMatches2.
  - now rewrite IHMatches.
  - rewrite IHMatches by assumption. apply orb_true_r.
Qed.

Lemma deriv_sound (a : ascii) (r : regex) :
  forall s, Matches (deriv a r) s -> Matches r (String a s).
Proof.
  induction r; simpl; intros s H.
  - inversion H.
  - inversion H.
  - destruct (Ascii.eqb_spec a c) as [->|]; inversion H; subst. constructor.
  - destruct (in_range lo hi a) eqn:E; inversion H; subst. now constructor.
  - destruct (is_digit a) eqn:E; inversion H; subst. now constructor.
  - destruct (nullable r1) eqn:N.
    + inversion H; subst.
      * match goal with M : Matches (Seq _ _) _ |- _ => inversion M; subst end.
        change (String a (?x ++ ?y)) with (String a x ++ y). constructor; auto.
      * change (String a s) with ("" ++ String a s).
        constructor; auto using nullable_sound.
    + inversion H; subst.
      change (String a (?x ++ ?y)) with (String a x ++ y). constructor; auto.
  - inversion H; subst; [apply MAltL | apply MAltR]; auto.
  - inversion H; subst.
    change (String a (?x ++ ?y)) with (String a x ++ y). constructor; auto.
Qed.

Lemma deriv_complete (a : ascii) (r : regex) (t : string) :
  Matches r t -> forall u, t = String a u -> Matches (deriv a r) u.
Proof.
  induction 1; intros u E; simpl; try discriminate.
  - injection E as -> <-. rewrite Ascii.eqb_refl. constructor.
  - injection E as -> <-. rewrite H. constructor.
  - injection E as -> <-. rewrite H. constructor.
  - destruct s1 as [|c s1]; simpl in E.
    + subst s2. rewrite (nullable_complete _ _ H eq_refl).
      apply MAltR. auto.
    + injection E as -> <-.
      destruct (nullable r1); [apply MAltL|]; constructor; auto.
  - apply MAltL. auto.
  - apply MAltR. auto.
  - destruct s1 as [|c s1]; simpl in E.
    + auto.
    + injection E as -> <-. constructor; auto.
Qed.

Lemma fullmatch_spec (s : string) :
  forall r, fullmatch r s = true <-> Matches r s.
Proof.
  induction s as [|a s IH]; intros r; simpl.
  - split; [apply nullable_sound | intros H; eapply nullable_complete; eauto].
  - rewrite IH. split; [apply deriv_sound | intros H; eapply deriv_complete; eauto].
Qed.

Lemma chomp_spec (s t : string) : chomp s = Some t <-> s = t ++ newline.
Proof.
  revert t. induction s as [|c s IH]; intros t.
  - simpl. split; [discriminate | destruct t; discriminate].
  - destruct s as [|c' s'].
    + simpl. destruct (Ascii.eqb_spec c "010") as [->|N].
      * split; [now intros [= <-] |].
        destruct t as [|d [|? ?]]; simpl; [reflexivity | discriminate | discriminate].
      * split; [discriminate |].
        destruct t as [|d [|? ?]]; simpl; intros [= ]; congruence.
    + remember (String c' s') as u eqn:Eu.
      assert (Ec : chomp (String c u) = option_map (String c) (chomp u))
        by (subst u; reflexivity).
      rewrite Ec. split.
      * destruct (chomp u) as [u'|] eqn:E; simpl; [|discriminate].
        intros [= <-]. simpl. f_equal. now apply IH.
      * destruct t as [|d t]; simpl.
        -- subst u. discriminate.
        -- intros [= -> E]. apply IH in E. now rewrite E.
Qed.

End RegexFacts.

(** ** What [is_valid] accepts *)

Section Validity.

Lemma star_digit_all_digits (r : regex) (s : string) :
  Matches r s -> r = Star Digit -> all_digits s = true.
Proof.
  induction 1; intros E; try discriminate; [reflexivity|].
  injection E as ->.
  match goal with M : Matches Digit _ |- _ => inversion M; subst end.
  simpl. rewrite IHMatches2 by reflexivity.
  now match goal with D : is_digit _ = true |- _ => rewrite D end.
Qed.

Lemma all_digits_star_digit (s : string) :
  all_digits s = true -> Matches (Star Digit) s.
Proof.
  induction s as [|c s IH]; simpl; intros H; [constructor|].
  apply andb_true_iff in H as [Hc Hs].
  change (String c s) with (String c "" ++ s).
  constructor; [now constructor | auto].
Qed.

Lemma nonzero_digit_not_zero (c : ascii) :
  in_range "1" "9" c = true -> Ascii.eqb c "0" = false.
Proof.
  intros H. destruct (Ascii.eqb_spec c "0") as [->|]; [discriminate H | reflexivity].
Qed.

Lemma nonzero_digit_is_digit (c : ascii) :
  in_range "1" "9" c = true -> is_digit c = true.
Proof.
  unfold is_digit, in_range. intros H.
  apply andb_true_iff in H as [H1 H2].
  apply andb_true_iff. split; [|assumption].
  apply Z.leb_le in H1. apply Z.leb_le.
  change (code "1") with 49 in H1. change (code "0") with 48. lia.
Qed.

Lemma component_re_spec (s : string) :
  Matches component_re s <-> numeric_component s = true.
Proof.
  unfold component_re. split.
  - intros H. inversion H; subst.
    + match goal with M : Matches (Lit _) _ |- _ => inversion M; subst end.
      reflexivity.
    + match goal with M : Matches (Seq _ _) _ |- _ => inversion M; subst end.
      match goal with M : Matches (Range _ _) _ |- _ => inversion M; subst end.
      simpl. rewrite nonzero_digit_not_zero by assumption.
      apply andb_true_iff. split; [assumption|].
      eapply star_digit_all_digits; eauto.
  - destruct s as [|c s]; simpl; [discriminate|].
    destruct (Ascii.eqb_spec c "0") as [->|N]; intros H.
    + apply String.eqb_eq in H as ->. apply MAltL. constructor.
    + apply andb_true_iff in H as [Hc Hs]. apply MAltR.
      change (String c s) with (String c "" ++ s).
      constructor; [now constructor | now apply all_digits_star_digit].
Qed.

Lemma semver_re_spec (s : string) : Matches semver_re s <-> semver_text s.
Proof.
  unfold semver_re, semver_text. split.
  - intros H.
    inversion H as [| | | |? ? a t1 Ha H1| | | |]; subst.
    inversion H1 as [| | | |? ? d1 t2 Hd1 H2| | | |]; subst.
    inversion H2 as [| | | |? ? b t3 Hb H3| | | |]; subst.
    inversion H3 as [| | | |? ? d2 c Hd2 Hc| | | |]; subst.
    inversion Hd1; subst. inversion Hd2; subst.
    exists a, b, c. rewrite <- !component_re_spec. auto.
  - intros (a & b & c & Ha & Hb & Hc & ->).
    apply component_re_spec in Ha, Hb, Hc.
    repeat (constructor; try assumption).
Qed.

Lemma is_valid_spec (x : SemVersion) : is_valid x = true <-> accepted_text (raw x).
Proof.
  unfold is_valid, match_anchored, accepted_text.
  rewrite orb_true_iff, fullmatch_spec, semver_re_spec.
  split; intros [H|H]; auto; right.
  - destruct (chomp (raw x)) as [t|] eqn:E; [|discriminate].
    exists t. rewrite <- semver_re_spec, <- fullmatch_spec.
    split; [now apply chomp_spec | assumption].
  - destruct H as (t & E & H). apply chomp_spec in E. rewrite E.
    now apply fullmatch_spec, semver_re_spec.
Qed.

Lemma semver_text_dec (s : string) : semver_text s <-> fullmatch semver_re s = true.
Proof. now rewrite fullmatch_spec, semver_re_spec. Qed.

End Validity.

(** ** What [parse] returns on an accepted text *)

Section ParseFacts.

Ltac by_char_cases c H :=
  destruct c as [[] [] [] [] [] [] [] []]; try (cbv in H; discriminate H); try reflexivity.

Lemma digit_not_dot (c : ascii) : is_digit c = true -> Ascii.eqb c "." = false.
Proof.
  intros H. destruct (Ascii.eqb_spec c ".") as [->|]; [discriminate H | reflexivity].
Qed.

Lemma digit_not_space (c : ascii) : is_digit c = true -> is_space c = false.
Proof. intros H. by_char_cases c H. Qed.

Lemma digit_value_range (c : ascii) : is_digit c = true -> 0 <= digit_value c <= 9.
Proof.
  unfold is_digit, in_range, digit_value. intros H.
  apply andb_true_iff in H as [H1 H2].
  apply Z.leb_le in H1, H2.
  change (code "0") with 48 in H1. change (code "9") with 57 in H2. lia.
Qed.

Lemma has_char_app (x : ascii) (s t : string) :
  has_char x (s ++ t) = has_char x s || has_char x t.
Proof.
  induction s as [|c s IH]; simpl; [reflexivity|].
  now rewrite IH, orb_assoc.
Qed.

Lemma all_digits_no_dot (s : string) : all_digits s = true -> has_char "." s = false.
Proof.
  induction s as [|c s IH]; simpl; intros H; [reflexivity|].
  apply andb_true_iff in H as [Hc Hs].
  now rewrite digit_not_dot, IH.
Qed.

Lemma component_all_digits (s : string) :
  numeric_component s = true ->
  exists c t, s = String c t /\ is_digit c = true /\ all_digits t = true.
Proof.
  destruct s as [|c t]; simpl; [discriminate|]. intros H. exists c, t.
  destruct (Ascii.eqb_spec c "0") as [->|N].
  - apply String.eqb_eq in H as ->. auto.
  - apply andb_true_iff in H as [Hc Ht]. auto using nonzero_digit_is_digit.
Qed.

Lemma component_no_dot (s : string) :
  numeric_component s = true -> has_char "." s = false.
Proof.
  intros H. apply all_digits_no_dot.
  destruct (component_all_digits s H) as (c & t & -> & Hc & Ht).
  simpl. now rewrite Hc, Ht.
Qed.

Lemma split_no_sep (sep : ascii) (s : string) :
  has_char sep s = false -> split sep s = [s].
Proof.
  induction s as [|c s IH]; simpl; intros H; [reflexivity|].
  apply orb_false_iff in H as [Hc Hs]. now rewrite Hc, IH.
Qed.

Lemma split_app (sep : ascii) (a rest : string) :
  has_char sep a = false -> split sep (a ++ String sep rest) = a :: split sep rest.
Proof.
  induction a as [|c a IH]; simpl; intros H.
  - now rewrite Ascii.eqb_refl.
  - apply orb_false_iff in H as [Hc Ha]. now rewrite Hc, IH.
Qed.

Lemma rstrip_all_digits (s : string) : all_digits s = true -> rstrip s = s.
Proof.
  induction s as [|c s IH]; simpl; intros H; [reflexivity|].
  apply andb_true_iff in H as [Hc Hs]. rewrite IH by assumption.
  destruct s; [now rewrite digit_not_space | reflexivity].
Qed.

Lemma rstrip_all_digits_newline (c : ascii) (s : string) :
  is_digit c = true -> all_digits s = true ->
  rstrip (String c s ++ newline) = String c s.
Proof.
  revert c. induction s as [|d s IH]; intros c Hc Hs.
  - simpl. now rewrite digit_not_space.
  - simpl in Hs. apply andb_true_iff in Hs as [Hd Hs].
    change (rstrip (String c (String d s) ++ newline))
      with (match rstrip (String d s ++ newline) with
            | "" => if is_space c then "" else String c ""
            | t => String c t
            end).
    now rewrite IH.
Qed.

Lemma digits_all_digits (s : string) :
  forall acc, all_digits s = true -> digits acc true s = Some (decimal acc s).
Proof.
  induction s as [|c s IH]; simpl; intros acc H; [reflexivity|].
  apply andb_true_iff in H as [Hc Hs]. now rewrite Hc, IH.
Qed.

Lemma decimal_nonneg (s : string) :
  forall acc, all_digits s = true -> 0 <= acc -> 0 <= decimal acc s.
Proof.
  induction s as [|c s IH]; cbn [decimal all_digits]; intros acc H Hacc; [assumption|].
  apply andb_true_iff in H as [Hc Hs].
  apply IH; [assumption|]. pose proof (digit_value_range c Hc). lia.
Qed.

Lemma count_digits_all_digits (s : string) :
  all_digits s = true -> count_digits s = Z.of_nat (String.length s).
Proof.
  induction s as [|c s IH]; cbn [count_digits all_digits String.length];
    intros H; [reflexivity|].
  apply andb_true_iff in H as [Hc Hs].
  rewrite Hc, IH, Nat2Z.inj_succ by assumption. lia.
Qed.

Lemma int_literal_digits (c : ascii) (t : string) :
  is_digit c = true -> all_digits t = true ->
  int_literal (String c t)
  = if fits (String c t) then Some (decimal 0 (String c t)) else None.
Proof.
  intros Hc Ht. unfold int_literal, fits.
  rewrite count_digits_all_digits by (cbn [all_digits]; now rewrite Hc, Ht).
  rewrite Z.ltb_antisym.
  destruct (Z.of_nat (String.length (String c t)) <=? int_max_str_digits);
    cbn [negb]; [|reflexivity].
  cbn [digits decimal]. now rewrite Hc, digits_all_digits.
Qed.

Lemma py_int_unsigned (s t : string) (c : ascii) :
  strip s = String c t -> is_digit c = true -> all_digits t = true ->
  py_int s = if fits (String c t) then Some (decimal 0 (String c t)) else None.
Proof.
  intros E Hc Ht. unfold py_int. rewrite E.
  transitivity (int_literal (String c t)).
  - by_char_cases c Hc.
  - now apply int_literal_digits.
Qed.

(** [int] on a component, alone or followed by the newline it strips: the
    number the digits denote when they are few enough, [ValueError]
    otherwise. *)
Lemma py_int_component (s : string) :
  numeric_component s = true ->
  py_int s = (if fits s then Some (decimal 0 s) else None) /\
  py_int (s ++ newline) = (if fits s then Some (decimal 0 s) else None).
Proof.
  intros H. destruct (component_all_digits s H) as (c & t & -> & Hc & Ht).
  split; apply py_int_unsigned; try assumption; unfold strip.
  - simpl. rewrite digit_not_space by assumption.
    apply rstrip_all_digits. simpl. now rewrite Hc, Ht.
  - simpl lstrip. rewrite digit_not_space by assumption.
    now apply rstrip_all_digits_newline.
Qed.

Lemma component_value_nonneg (s : string) :
  numeric_component s = true -> 0 <= decimal 0 s.
Proof.
  intros H. destruct (component_all_digits s H) as (c & t & -> & Hc & Ht).
  apply decimal_nonneg; [|lia]. simpl. now rewrite Hc, Ht.
Qed.

Lemma parse_semver_text (a b c : string) :
  numeric_component a = true -> numeric_component b = true ->
  numeric_component c = true ->
  parse (v (a ++ "." ++ b ++ "." ++ c))
  = if fits a && fits b && fits c
    then Done (decimal 0 a, decimal 0 b, decimal 0 c)
    else Raise ValueError.
Proof.
  intros Ha Hb Hc. unfold parse, v, raw. simpl append.
  rewrite !split_app, split_no_sep by now apply component_no_dot.
  destruct (py_int_component a Ha) as [-> _].
  destruct (py_int_component b Hb) as [-> _].
  destruct (py_int_component c Hc) as [-> _].
  now destruct (fits a), (fits b), (fits c).
Qed.

Lemma parse_semver_text_newline (a b c : string) :
  numeric_component a = true -> numeric_component b = true ->
  numeric_component c = true ->
  parse (v ((a ++ "." ++ b ++ "." ++ c) ++ newline))
  = if fits a && fits b && fits c
    then Done (decimal 0 a, decimal 0 b, decimal 0 c)
    else Raise ValueError.
Proof.
  intros Ha Hb Hc. unfold parse, v, raw. simpl append.
  rewrite append_assoc. simpl append. rewrite append_assoc. simpl append.
  rewrite !split_app by now apply component_no_dot.
  rewrite split_no_sep
    by (rewrite has_char_app, component_no_dot by assumption; reflexivity).
  destruct (py_int_component a Ha) as [-> _].
  destruct (py_int_component b Hb) as [-> _].
  destruct (py_int_component c Hc) as [_ ->].
  now destruct (fits a), (fits b), (fits c).
Qed.

(** An accepted text parses to the values of its three components when
    each of them fits, and makes [int] raise when one does not. *)
Lemma parse_accepted (x : SemVersion) :
  is_valid x = true ->
  exists a b c,
    numeric_component a = true /\ numeric_component b = true /\
    numeric_component c = true /\
    (raw x = a ++ "." ++ b ++ "." ++ c \/
     raw x = (a ++ "." ++ b ++ "." ++ c) ++ newline) /\
    parse x = if fits a && fits b && fits c
              then Done (decimal 0 a, decimal 0 b, decimal 0 c)
              else Raise ValueError.
Proof.
  intros H. apply is_valid_spec in H. destruct x as [s]. simpl in *.
  destruct H as [(a & b & c & Ha & Hb & Hc & ->)
                |(t & -> & a & b & c & Ha & Hb & Hc & ->)];
    exists a, b, c; repeat (split; [assumption|]); split; auto.
  - now apply parse_semver_text.
  - now apply parse_semver_text_newline.
Qed.

End ParseFacts.

(** ** The transition check *)

Section Transition.

Variables (current_version new_version : SemVersion) (args : CmdArgs).
Variables (cmaj cmin cpatch nmaj nmin npatch : Z).
Hypothesis parse_current : parse current_version = Done (cmaj, cmin, cpatch).
Hypothesis parse_new : parse new_version = Done (nmaj, nmin, npatch).

(** The check, once both versions are parsed, by declared bump kind. *)
Lemma validate_by_kind (b : BumpKind) :
  version args = bump_name b ->
  validate_semver_change current_version new_version args =
  if (raw current_version =? raw new_version)%string then Exit VersionsMatching
  else match b with
       | patch =>
           if negb (cmaj =? nmaj) then Exit (InvalidChange patch)
           else if cpatch + 1 =? npatch then Done tt
           else Exit (InvalidIncrease (raw current_version) (raw new_version))
       | minor =>
           if negb ((cmaj =? nmaj) && (npatch =? 0)) then Exit (InvalidChange minor)
           else if cmin + 1 =? nmin then Done tt
           else Exit (InvalidIncrease (raw current_version) (raw new_version))
       | major =>
           if negb ((cmin =? 0) && (npatch =? 0)) then Exit (InvalidChange major)
           else if cmaj + 1 =? nmaj then Done tt
           else Exit (InvalidIncrease (raw current_version) (raw new_version))
       end.
Proof.
  intros Hv. unfold validate_semver_change.
  rewrite parse_current, parse_new, Hv.
  destruct (raw current_version =? raw new_version)%string; [reflexivity|].
  destruct b; cbn [bump_name bind String.eqb Ascii.eqb Bool.eqb negb];
    rewrite ?Z.eqb_refl, ?andb_true_r.
  - destruct ((cmin =? 0) && (npatch =? 0)); cbn [negb bind];
      [destruct (cmaj + 1 =? nmaj)|]; reflexivity.
  - destruct ((cmaj =? nmaj) && (npatch =? 0)); cbn [negb bind];
      [destruct (cmin + 1 =? nmin)|]; reflexivity.
  - destruct (cmaj =? nmaj); cbn [negb bind];
      [destruct (cpatch + 1 =? npatch)|]; reflexivity.
Qed.

(** Identical texts have identical components. *)
Lemma same_raw_same_components :
  raw current_version = raw new_version ->
  cmaj = nmaj /\ cmin = nmin /\ cpatch = npatch.
Proof.
  intros E. assert (P : parse current_version = parse new_version)
    by (unfold parse; now rewrite E).
  rewrite parse_current, parse_new in P. now injection P.
Qed.

End Transition.

Ltac bool_cases Same :=
  repeat match goal with
         | |- context [(?a =? ?b)%string] => destruct (String.eqb_spec a b)
         | |- context [?a =? ?b] => destruct (Z.eqb_spec a b)
         end;
  cbn [negb andb]; intros;
  try match goal with e : raw _ = raw _ |- _ => pose proof (Same e) end;
  try discriminate; try tauto; try (repeat split; lia); try congruence.

(** C1.  On a [patch] bump the source tests [cmin == cmin], so a change of
    the minor component is not seen: 1.0.2 -> 1.1.3 is accepted, and
    1.0.2 -> 1.1.0 is turned down by the increment check, with the message of
    that check and not the one of the [patch] preconditions. *)
Theorem patch_bump_misses_minor_change :
  is_valid (v "1.0.2") = true /\ is_valid (v "1.1.3") = true /\
  is_valid (v "1.1.0") = true /\
  parse (v "1.0.2") = Done (1, 0, 2) /\ parse (v "1.1.3") = Done (1, 1, 3) /\
  parse (v "1.1.0") = Done (1, 1, 0) /\
  validate_semver_change (v "1.0.2") (v "1.1.3") (bump_args (v "1.1.3") patch)
  = Done tt /\
  validate_semver_change (v "1.0.2") (v "1.1.0") (bump_args (v "1.1.0") patch)
  = Exit (InvalidIncrease "1.0.2" "1.1.0").
Proof. repeat split; reflexivity. Qed.

(** C6.  On a [minor] bump the check passes exactly when the majors agree,
    the proposed patch is 0 and the proposed minor is the current minor plus
    one; the current patch plays no part.  When the texts differ and one of
    the two preconditions fails, the run ends with the message of the [minor]
    preconditions; when they hold and the minor is not the successor, with
    the message of the increment check. *)
Theorem minor_bump_rule
  (current_version new_version : SemVersion) (args : CmdArgs)
  (cmaj cmin cpatch nmaj nmin npatch : Z) :
  version args = bump_name minor ->
  parse current_version = Done (cmaj, cmin, cpatch) ->
  parse new_version = Done (nmaj, nmin, npatch) ->
  (validate_semver_change current_version new_version args = Done tt <->
   cmaj = nmaj /\ npatch = 0 /\ nmin = cmin + 1) /\
  (raw current_version <> raw new_version ->
   ~ (cmaj = nmaj /\ npatch = 0) ->
   validate_semver_change current_version new_version args
   = Exit (InvalidChange minor)) /\
  (raw current_version <> raw new_version ->
   cmaj = nmaj -> npatch = 0 -> nmin <> cmin + 1 ->
   validate_semver_change current_version new_version args
   = Exit (InvalidIncrease (raw current_version) (raw new_version))).
Proof.
  intros Hv Pc Pn.
  rewrite (validate_by_kind _ _ _ _ _ _ _ _ _ Pc Pn minor Hv).
  pose proof (same_raw_same_components _ _ _ _ _ _ _ _ Pc Pn) as Same.
  split; [split|split].
  - bool_cases Same.
  - intros (E1 & E2 & E3). bool_cases Same.
  - intros D N. bool_cases Same.
  - intros D E1 E2 N. bool_cases Same.
Qed.

Lemma minor_bump_rule_witness :
  version (bump_args (v "1.3.0") minor) = bump_name minor /\
  parse (v "1.2.5") = Done (1, 2, 5) /\
  parse (v "1.3.0") = Done (1, 3, 0) /\
  validate_semver_change (v "1.2.5") (v "1.3.0") (bump_args (v "1.3.0") minor)
  = Done tt.
Proof.
  repeat (split; [reflexivity|]).
  apply (minor_bump_rule (v "1.2.5") (v "1.3.0") (bump_args (v "1.3.0") minor)
           1 2 5 1 3 0); try reflexivity.
  repeat split; reflexivity.
Defined.

(** C7.  On a [major] bump the check passes exactly when the current minor
    is 0, the proposed patch is 0 and the proposed major is the current major
    plus one.  When the texts differ and one of the two preconditions fails,
    the run ends with the message of the [major] preconditions; so it does
    for 2.1.0 -> 3.0.0, whose current minor is 1. *)
Theorem major_bump_rule
  (current_version new_version : SemVersion) (args : CmdArgs)
  (cmaj cmin cpatch nmaj nmin npatch : Z) :
  version args = bump_name major ->
  parse current_version = Done (cmaj, cmin, cpatch) ->
  parse new_version = Done (nmaj, nmin, npatch) ->
  (validate_semver_change current_version new_version args = Done tt <->
   cmin = 0 /\ npatch = 0 /\ nmaj = cmaj + 1) /\
  (raw current_version <> raw new_version ->
   ~ (cmin = 0 /\ npatch = 0) ->
   validate_semver_change current_version new_version args
   = Exit (InvalidChange major)) /\
  (raw current_version <> raw new_version ->
   cmin = 0 -> npatch = 0 -> nmaj <> cmaj + 1 ->
   validate_semver_change current_version new_version args
   = Exit (InvalidIncrease (raw current_version) (raw new_version))).
Proof.
  intros Hv Pc Pn.
  rewrite (validate_by_kind _ _ _ _ _ _ _ _ _ Pc Pn major Hv).
  pose proof (same_raw_same_components _ _ _ _ _ _ _ _ Pc Pn) as Same.
  split; [split|split].
  - bool_cases Same.
  - intros (E1 & E2 & E3). bool_cases Same.
  - intros D N. bool_cases Same.
  - intros D E1 E2 N. bool_cases Same.
Qed.

Lemma major_bump_rule_witness :
  version (bump_args (v "3.0.0") major) = bump_name major /\
  parse (v "2.1.0") = Done (2, 1, 0) /\
  parse (v "3.0.0") = Done (3, 0, 0) /\
  validate_semver_change (v "2.1.0") (v "3.0.0") (bump_args (v "3.0.0") major)
  = Exit (InvalidChange major).
Proof.
  repeat (split; [reflexivity|]).
  apply (major_bump_rule (v "2.1.0") (v "3.0.0") (bump_args (v "3.0.0") major)
           2 1 0 3 0 0); try reflexivity.
  - discriminate.
  - intros [H _]. discriminate H.
Defined.

(** C8.  The rules of the check run in order, and the increment check
    concerns the transitions that are past the no-change gate, which the
    program decides on the texts.  For such a transition whose bump-kind
    preconditions are met, the check passes exactly when the compared new
    value is the compared old value plus one, and otherwise ends with the
    message of the increment check; so it does for 1.0.0 -> 1.0.2 declared
    as a patch.  Versions whose components differ have different texts, so
    the statement covers every transition between distinct versions. *)
Theorem increment_check
  (current_version new_version : SemVersion) (args : CmdArgs) (b : BumpKind)
  (cur new : Z * Z * Z) :
  version args = bump_name b ->
  parse current_version = Done cur ->
  parse new_version = Done new ->
  raw current_version <> raw new_version ->
  spec_preconditions b cur new ->
  (validate_semver_change current_version new_version args = Done tt <->
   snd (compared b cur new) = fst (compared b cur new) + 1) /\
  (snd (compared b cur new) <> fst (compared b cur new) + 1 ->
   validate_semver_change current_version new_version args
   = Exit (InvalidIncrease (raw current_version) (raw new_version))).
Proof.
  destruct cur as [[cmaj cmin] cpatch], new as [[nmaj nmin] npatch].
  intros Hv Pc Pn D Pre.
  rewrite (validate_by_kind _ _ _ _ _ _ _ _ _ Pc Pn b Hv).
  pose proof (same_raw_same_components _ _ _ _ _ _ _ _ Pc Pn) as Same.
  destruct b; cbn [spec_preconditions compared fst snd] in *;
    destruct Pre as [P1 P2]; (split; [split|]); bool_cases Same.
Qed.

Lemma increment_check_witness :
  version (bump_args (v "1.0.2") patch) = bump_name patch /\
  parse (v "1.0.0") = Done (1, 0, 0) /\
  parse (v "1.0.2") = Done (1, 0, 2) /\
  raw (v "1.0.0") <> raw (v "1.0.2") /\
  spec_preconditions patch (1, 0, 0) (1, 0, 2) /\
  validate_semver_change (v "1.0.0") (v "1.0.2") (bump_args (v "1.0.2") patch)
  = Exit (InvalidIncrease "1.0.0" "1.0.2").
Proof.
  repeat (split; [first [reflexivity | discriminate]|]).
  split; [split; reflexivity|].
  apply (increment_check (v "1.0.0") (v "1.0.2") (bump_args (v "1.0.2") patch)
           patch (1, 0, 0) (1, 0, 2)); try reflexivity.
  - discriminate.
  - split; reflexivity.
  - discriminate.
Defined.

(** ** Components are determined by their values *)

Section DecimalFacts.

Local Abbreviation len s := (Z.of_nat (String.length s)).

Lemma decimal_shift (s : string) :
  forall acc, decimal acc s = acc * 10 ^ len s + decimal 0 s.
Proof.
  induction s as [|c s IH]; intros acc; cbn [decimal String.length].
  - change (10 ^ Z.of_nat 0) with 1. lia.
  - rewrite (IH (10 * acc + digit_value c)), (IH (10 * 0 + digit_value c)).
    rewrite Nat2Z.inj_succ, Z.pow_succ_r by lia. ring.
Qed.

Lemma decimal_lt (s : string) :
  all_digits s = true -> 0 <= decimal 0 s < 10 ^ len s.
Proof.
  induction s as [|c s IH]; cbn [decimal all_digits String.length]; intros H.
  - change (10 ^ Z.of_nat 0) with 1. lia.
  - apply andb_true_iff in H as [Hc Hs].
    rewrite decimal_shift, Nat2Z.inj_succ, Z.pow_succ_r by lia.
    pose proof (digit_value_range c Hc). specialize (IH Hs). nia.
Qed.

Lemma digit_value_inj (c d : ascii) : digit_value c = digit_value d -> c = d.
Proof.
  unfold digit_value, code. intros H.
  assert (E : N_of_ascii c = N_of_ascii d) by lia.
  rewrite <- (ascii_N_embedding c), <- (ascii_N_embedding d). now rewrite E.
Qed.

Lemma decimal_inj_same_length (s : string) :
  forall t, String.length s = String.length t ->
            all_digits s = true -> all_digits t = true ->
            decimal 0 s = decimal 0 t -> s = t.
Proof.
  induction s as [|c s IH]; intros [|d t]; cbn [String.length]; try discriminate;
    [reflexivity|].
  intros L Hs Ht E. injection L as L.
  cbn [all_digits] in Hs, Ht.
  apply andb_true_iff in Hs as [Hc Hs]. apply andb_true_iff in Ht as [Hd Ht].
  cbn [decimal] in E. rewrite (decimal_shift s), (decimal_shift t), L in E.
  pose proof (decimal_lt s Hs) as Bs. pose proof (decimal_lt t Ht) as Bt.
  rewrite L in Bs.
  assert (V : digit_value c = digit_value d).
  { destruct (Z.lt_trichotomy (digit_value c) (digit_value d)) as [?|[?|?]];
      [nia | assumption | nia]. }
  rewrite (digit_value_inj c d V). f_equal.
  apply IH; try assumption. rewrite V in E. lia.
Qed.

Lemma leading_digit_bounds (c : ascii) (s : string) :
  in_range "1" "9" c = true -> all_digits s = true ->
  10 ^ len s <= decimal 0 (String c s) < 10 ^ (len s + 1).
Proof.
  intros Hc Hs. cbn [decimal]. rewrite decimal_shift.
  pose proof (decimal_lt s Hs) as B.
  pose proof (digit_value_range c (nonzero_digit_is_digit c Hc)) as R.
  assert (1 <= digit_value c).
  { unfold in_range in Hc. apply andb_true_iff in Hc as [H1 _].
    apply Z.leb_le in H1. change (code "1") with 49 in H1.
    unfold digit_value. lia. }
  rewrite Z.pow_add_r, Z.pow_1_r by lia. nia.
Qed.

Lemma component_value_inj (a b : string) :
  numeric_component a = true -> numeric_component b = true ->
  decimal 0 a = decimal 0 b -> a = b.
Proof.
  destruct a as [|c s], b as [|d t]; cbn [numeric_component]; try discriminate.
  destruct (Ascii.eqb_spec c "0") as [->|Nc], (Ascii.eqb_spec d "0") as [->|Nd];
    intros Ha Hb E.
  - apply String.eqb_eq in Ha, Hb. now subst.
  - apply String.eqb_eq in Ha as ->. apply andb_true_iff in Hb as [Hd Ht].
    pose proof (leading_digit_bounds d t Hd Ht) as B.
    assert (0 < 10 ^ len t) by (apply Z.pow_pos_nonneg; lia).
    change (decimal 0 "0") with 0 in E. lia.
  - apply String.eqb_eq in Hb as ->. apply andb_true_iff in Ha as [Hc Hs].
    pose proof (leading_digit_bounds c s Hc Hs) as B.
    assert (0 < 10 ^ len s) by (apply Z.pow_pos_nonneg; lia).
    change (decimal 0 "0") with 0 in E. lia.
  - apply andb_true_iff in Ha as [Hc Hs]. apply andb_true_iff in Hb as [Hd Ht].
    pose proof (leading_digit_bounds c s Hc Hs) as Bs.
    pose proof (leading_digit_bounds d t Hd Ht) as Bt.
    assert (L : String.length s = String.length t).
    { destruct (Nat.lt_trichotomy (String.length s) (String.length t)) as [?|[?|?]];
        [exfalso | assumption | exfalso].
      - assert (10 ^ (len s + 1) <= 10 ^ len t) by (apply Z.pow_le_mono_r; lia). lia.
      - assert (10 ^ (len t + 1) <= 10 ^ len s) by (apply Z.pow_le_mono_r; lia). lia. }
    apply decimal_inj_same_length; cbn [String.length all_digits];
      auto using nonzero_digit_is_digit.
    + now rewrite (nonzero_digit_is_digit c Hc), Hs.
    + now rewrite (nonzero_digit_is_digit d Hd), Ht.
Qed.

Lemma digit_not_newline (c : ascii) : is_digit c = true -> Ascii.eqb c "010" = false.
Proof.
  intros H. destruct (Ascii.eqb_spec c "010") as [->|]; [discriminate H | reflexivity].
Qed.

Lemma component_no_newline (s : string) :
  numeric_component s = true -> has_char "010" s = false.
Proof.
  intros H. destruct (component_all_digits s H) as (c & t & -> & Hc & Ht).
  cbn [has_char]. rewrite digit_not_newline by assumption. simpl.
  clear Hc c H. induction t as [|d t IH]; [reflexivity|].
  cbn [all_digits has_char] in *. apply andb_true_iff in Ht as [Hd Ht].
  now rewrite digit_not_newline, IH.
Qed.

End DecimalFacts.

(** C3, as stated, fails when the version record ends with a newline: the
    record 1.0.0 followed by a newline is read back with its newline, is
    valid, and has the components of the requested 1.0.0, but the two texts
    differ, so the no-change gate lets the pair through and the run ends with
    the message of the increment check. *)
Lemma same_components_different_texts :
  fst (SemVerFile.get_current_sem_ver (sample_world "1.0.0" patch 0)
         {| version_txt := Some ("1.0.0" ++ newline) |})
  = Done (v ("1.0.0" ++ newline)) /\
  is_valid (v ("1.0.0" ++ newline)) = true /\
  is_valid (v "1.0.0") = true /\
  parse (v ("1.0.0" ++ newline)) = Done (1, 0, 0) /\
  parse (v "1.0.0") = Done (1, 0, 0) /\
  validate_semver_change (v ("1.0.0" ++ newline)) (v "1.0.0")
    (bump_args (v "1.0.0") patch)
  = Exit (InvalidIncrease ("1.0.0" ++ newline) "1.0.0") /\
  validate_semver_change (v ("1.0.0" ++ newline)) (v "1.0.0")
    (bump_args (v "1.0.0") patch)
  <> Exit VersionsMatching.
Proof.
  repeat split; try reflexivity; discriminate.
Qed.

(** C3, amended.  A transition between two versions with the same three
    components never passes, whatever the declared bump kind.  It ends with
    the message of the no-change gate exactly when the two texts are
    identical, and with the message of the preconditions or of the increment
    check when they differ. *)
Theorem same_components_rejected
  (current_version new_version : SemVersion) (args : CmdArgs) (c : Z * Z * Z) :
  parse current_version = Done c ->
  parse new_version = Done c ->
  (exists m, validate_semver_change current_version new_version args = Exit m) /\
  (validate_semver_change current_version new_version args = Exit VersionsMatching
   <-> raw current_version = raw new_version) /\
  (raw current_version <> raw new_version ->
   (exists b, validate_semver_change current_version new_version args
              = Exit (InvalidChange b)) \/
   validate_semver_change current_version new_version args
   = Exit (InvalidIncrease (raw current_version) (raw new_version))).
Proof.
  intros Pc Pn. destruct c as [[cmaj cmin] cpatch].
  assert (D : raw current_version <> raw new_version ->
              (exists b, validate_semver_change current_version new_version args
                         = Exit (InvalidChange b)) \/
              validate_semver_change current_version new_version args
              = Exit (InvalidIncrease (raw current_version) (raw new_version))).
  { intros N. unfold validate_semver_change. rewrite Pc, Pn.
    destruct (String.eqb_spec (raw current_version) (raw new_version));
      [contradiction|].
    cbn [bind].
    repeat match goal with
           | |- context [(?a =? ?b)%string] => destruct (String.eqb_spec a b)
           | |- context [?a =? ?b] => destruct (Z.eqb_spec a b)
           end;
      cbn [negb andb bind]; eauto; try lia;
      repeat match goal with
             | |- context [?a =? ?b] => destruct (Z.eqb_spec a b)
             end;
      cbn [negb andb bind]; eauto; lia. }
  assert (S : raw current_version = raw new_version ->
              validate_semver_change current_version new_version args
              = Exit VersionsMatching).
  { intros E. unfold validate_semver_change. rewrite E.
    now rewrite String.eqb_refl. }
  destruct (String.eqb_spec (raw current_version) (raw new_version)) as [E|N].
  - split; [eauto|]. split; [tauto | contradiction].
  - split; [destruct (D N) as [[b ->]| ->]; eauto|].
    split; [|exact D].
    split; [|contradiction].
    destruct (D N) as [[b ->]| ->]; discriminate.
Qed.

Lemma same_components_rejected_witness :
  parse (v ("1.0.0" ++ newline)) = Done (1, 0, 0) /\
  parse (v "1.0.0") = Done (1, 0, 0) /\
  exists m,
    validate_semver_change (v ("1.0.0" ++ newline)) (v "1.0.0")
      (bump_args (v "1.0.0") minor) = Exit m.
Proof.
  repeat (split; [reflexivity|]).
  apply (same_components_rejected (v ("1.0.0" ++ newline)) (v "1.0.0")
           (bump_args (v "1.0.0") minor) (1, 0, 0)); reflexivity.
Defined.

(** ** The run as a whole *)

Section Orchestration.

Ltac unfold_run :=
  unfold main, SemVerFile.get_current_sem_ver, SemVerFile.overwrite_version,
    Terminal.login, Terminal.build, Terminal.show_image, Terminal.push,
    Dotenv.load_dotenv, get_dockerhub_creds, get_cmd_args,
    StaticConfig.semver_file, StaticConfig.dotenv_file,
    StaticConfig.dockerfile_path, StaticConfig.build_context,
    _get_rel_file_path, path_exists, bindP, exit, lift, ret.

(** Split on a test of the program none of whose parts is itself a test. *)
Ltac case_innermost :=
  match goal with
  | |- context [match ?x with _ => _ end] =>
      lazymatch x with
      | context [match _ with _ => _ end] => fail
      | _ => destruct x eqn:?
      end
  end.

Local Arguments is_valid : simpl never.
Local Arguments validate_semver_change : simpl never.
Local Arguments readlines : simpl never.
Local Arguments _get_full_image_name : simpl never.
Local Arguments existsb : simpl never.

(** A run either goes through every gate and commits the requested tag, or
    stops short of success and leaves the record as it was. *)
Lemma main_outcome (w : World) (st : Store) :
  (fst (main w st) = Done tt /\
   snd (main w st) = {| version_txt := Some (tag (argv w)) |} /\
   gates_passed w st) \/
  (fst (main w st) <> Done tt /\ snd (main w st) = st).
Proof.
  unfold gates_passed. destruct (argv w) as [t ver] eqn:Eargv.
  unfold_run. rewrite Eargv. simpl.
  repeat (case_innermost; simpl); try (right; split; [discriminate|reflexivity]).
  left; split; [reflexivity|]; split; [reflexivity|].
  repeat match goal with
         | H : Some _ = Some _ |- _ => injection H; clear H; intros; subst
         | H : negb _ = false |- _ => apply negb_false_iff in H
         | H : (_ =? _) = true |- _ => apply Z.eqb_eq in H
         | a : unit |- _ => destruct a
         end.
  unfold v. repeat eexists; eassumption.
Qed.

(** The two validity gates of [main], once the steps before them are
    through. *)
Lemma main_rejects_record (w : World) (st : Store) (content current : string) :
  existsb (String.eqb (version (argv w))) version_increase_types = true ->
  version_txt st = Some content ->
  readlines content = [current] ->
  is_valid (v current) = false ->
  main w st = (Exit InvalidVersionTxtSemVer, st).
Proof.
  intros Hv Hs Hl Hc. unfold_run. unfold v in *. cbv beta zeta.
  rewrite Hv. cbn. rewrite Hs. cbn. rewrite Hs. cbn. rewrite Hl. cbn. now rewrite Hc.
Qed.

Lemma main_rejects_tag (w : World) (st : Store) (content current : string) :
  existsb (String.eqb (version (argv w))) version_increase_types = true ->
  version_txt st = Some content ->
  readlines content = [current] ->
  is_valid (v current) = true ->
  is_valid (v (tag (argv w))) = false ->
  main w st = (Exit InvalidTagSemVer, st).
Proof.
  intros Hv Hs Hl Hc Ht. unfold_run. unfold v in *. cbv beta zeta.
  rewrite Hv. cbn. rewrite Hs. cbn. rewrite Hs. cbn. rewrite Hl. cbn. rewrite Hc. cbn.
  now rewrite Ht.
Qed.

End Orchestration.

(** C5.  The version record changes only in a run that went through every
    gate, the push included, and then it holds the requested tag; a run that
    stops anywhere, in particular on a failing push, leaves the record as it
    was.  With the record at 1.0.0 and the tag 1.0.1 declared as a patch, the
    record becomes 1.0.1 when every step succeeds and stays 1.0.0 when the
    push returns 1. *)
Theorem version_record_committed_last (w : World) (st : Store) :
  (fst (main w st) <> Done tt -> snd (main w st) = st) /\
  (fst (main w st) = Done tt ->
   snd (main w st) = {| version_txt := Some (tag (argv w)) |} /\ gates_passed w st) /\
  (snd (main w st) <> st -> fst (main w st) = Done tt /\ gates_passed w st) /\
  (forall i p,
      DOCKERHUB_ID w = Some i -> DOCKERHUB_PW w = Some p ->
      docker_push w (_get_full_image_name {| id := i; password := p |} (argv w)) <> 0 ->
      fst (main w st) <> Done tt /\ snd (main w st) = st) /\
  main (sample_world "1.0.1" patch 0) {| version_txt := Some "1.0.0" |}
  = (Done tt, {| version_txt := Some "1.0.1" |}) /\
  main (sample_world "1.0.1" patch 1) {| version_txt := Some "1.0.0" |}
  = (Exit FailedToBuildImage, {| version_txt := Some "1.0.0" |}).
Proof.
  pose proof (main_outcome w st) as [(D & S & G)|(D & S)].
  - split; [intros N; contradiction|].
    split; [intros _; split; assumption|].
    split; [intros _; split; assumption|].
    split; [|split; reflexivity].
    intros i p Hi Hp Hpush. exfalso.
    destruct G as (? & ? & i' & p' & G). decompose [and] G. congruence.
  - split; [intros _; assumption|].
    split; [intros N; contradiction|].
    split; [intros N; contradiction|].
    split; [|split; reflexivity].
    intros i p _ _ _. split; assumption.
Qed.

Lemma version_record_committed_last_witness :
  fst (main (sample_world "1.0.1" patch 1) {| version_txt := Some "1.0.0" |})
  <> Done tt /\
  snd (main (sample_world "1.0.1" patch 1) {| version_txt := Some "1.0.0" |})
  = {| version_txt := Some "1.0.0" |}.
Proof.
  split; [discriminate|].
  apply (version_record_committed_last
           (sample_world "1.0.1" patch 1) {| version_txt := Some "1.0.0" |}).
  discriminate.
Defined.

(** ** Reading the record back *)

Section ReadBack.

Lemma rev_append_string_app (r : list ascii) :
  forall s, rev_append_string r s = rev_append_string r "" ++ s.
Proof.
  induction r as [|c r IH]; intros s; cbn [rev_append_string]; [reflexivity|].
  rewrite (IH (String c s)), (IH (String c "")), append_assoc. reflexivity.
Qed.

Lemma readlines_from_plain_char (c : ascii) (cur : list ascii) (s : string) :
  Ascii.eqb c "010" = false -> Ascii.eqb c "013" = false ->
  readlines_from cur (String c s) = readlines_from (c :: cur) s.
Proof.
  intros H1 H2.
  destruct c as [[] [] [] [] [] [] [] []];
    try (cbv in H1; discriminate H1); try (cbv in H2; discriminate H2);
    reflexivity.
Qed.

Lemma readlines_from_with_newline (s : string) :
  forall cur,
    has_char "010" s = false -> has_char "013" s = false ->
    readlines_from cur (s ++ newline) = [rev_append_string cur "" ++ s ++ newline].
Proof.
  induction s as [|c s IH]; intros cur H1 H2.
  - cbn. now rewrite rev_append_string_app.
  - cbn [has_char] in H1, H2.
    apply orb_false_iff in H1 as [C1 H1]. apply orb_false_iff in H2 as [C2 H2].
    cbn [append]. rewrite readlines_from_plain_char by assumption.
    rewrite IH by assumption. cbn [rev_append_string].
    rewrite rev_append_string_app, append_assoc. reflexivity.
Qed.

Lemma readlines_from_without_newline (s : string) :
  forall cur,
    has_char "010" s = false -> has_char "013" s = false ->
    (s <> "" \/ cur <> []) ->
    readlines_from cur s = [rev_append_string cur "" ++ s].
Proof.
  induction s as [|c s IH]; intros cur H1 H2 N.
  - destruct cur; [destruct N; congruence|].
    cbn [readlines_from]. now rewrite append_empty_r.
  - cbn [has_char] in H1, H2.
    apply orb_false_iff in H1 as [C1 H1]. apply orb_false_iff in H2 as [C2 H2].
    rewrite readlines_from_plain_char by assumption.
    rewrite IH by (try assumption; right; discriminate).
    cbn [rev_append_string].
    rewrite rev_append_string_app, append_assoc. reflexivity.
Qed.

Lemma component_without (x : ascii) (s : string) :
  is_digit x = false -> numeric_component s = true -> has_char x s = false.
Proof.
  intros Hx H. destruct (component_all_digits s H) as (c & t & -> & Hc & Ht).
  assert (A : all_digits (String c t) = true) by (cbn; now rewrite Hc, Ht).
  clear Hc Ht H. induction (String c t) as [|d u IH]; [reflexivity|].
  cbn [all_digits has_char] in *. apply andb_true_iff in A as [Hd Hu].
  rewrite IH by assumption.
  destruct (Ascii.eqb_spec d x) as [->|]; [congruence | reflexivity].
Qed.

Lemma semver_text_without (x : ascii) (s : string) :
  is_digit x = false -> Ascii.eqb "." x = false ->
  semver_text s -> has_char x s = false.
Proof.
  intros Hx Hd (a & b & c & Ha & Hb & Hc & ->).
  rewrite has_char_app, (component_without x a) by assumption.
  cbn [append has_char]. rewrite Hd.
  rewrite has_char_app, (component_without x b) by assumption.
  cbn [append has_char]. rewrite Hd.
  now rewrite (component_without x c).
Qed.

Lemma semver_text_nonempty (s : string) : semver_text s -> s <> "".
Proof.
  intros (a & b & c & Ha & _ & _ & ->). destruct a; [discriminate Ha | discriminate].
Qed.

(** An accepted text is one line of the record. *)
Lemma readlines_accepted (s : string) : accepted_text s -> readlines s = [s].
Proof.
  unfold readlines. intros [H|(t & -> & H)].
  - rewrite readlines_from_without_newline;
      auto using semver_text_without, semver_text_nonempty.
  - rewrite readlines_from_with_newline; auto using semver_text_without.
Qed.

End ReadBack.

(** C9.  [overwrite_version] writes only a version that [is_valid] accepts:
    an invalid one ends the run with the record untouched, and whenever the
    record changes or the call returns, the text written matches the pattern
    (three components and, at most, a final newline) and is read back from
    the record as the same valid version. *)
Theorem overwrite_version_keeps_record_valid
  (w : World) (new_version : SemVersion) (st : Store) :
  (is_valid new_version = false ->
   SemVerFile.overwrite_version w new_version st = (Exit InvalidSemVerFormat, st)) /\
  (fst (SemVerFile.overwrite_version w new_version st) <> Done tt ->
   snd (SemVerFile.overwrite_version w new_version st) = st) /\
  (fst (SemVerFile.overwrite_version w new_version st) = Done tt \/
   snd (SemVerFile.overwrite_version w new_version st) <> st ->
   is_valid new_version = true /\
   accepted_text (raw new_version) /\
   snd (SemVerFile.overwrite_version w new_version st)
   = {| version_txt := Some (raw new_version) |} /\
   SemVerFile.get_current_sem_ver w
     (snd (SemVerFile.overwrite_version w new_version st))
   = (Done new_version, {| version_txt := Some (raw new_version) |})).
Proof.
  unfold SemVerFile.overwrite_version, SemVerFile.get_current_sem_ver,
    StaticConfig.semver_file, _get_rel_file_path, bindP, exit, lift.
  cbn [path_exists].
  destruct (is_valid new_version) eqn:V; cbn [negb fst snd].
  - destruct (version_txt st) as [old|] eqn:S; cbn [negb fst snd].
    + split; [discriminate|]. split; [intros N; now contradiction N|].
      intros _. apply is_valid_spec in V.
      repeat split; try assumption.
      cbn [version_txt negb]. rewrite (readlines_accepted _ V).
      now destruct new_version.
    + split; [discriminate|]. split; [reflexivity|].
      intros [D|D]; [discriminate D | now contradiction D].
  - split; [reflexivity|]. split; [reflexivity|].
    intros [D|D]; [discriminate D | now contradiction D].
Qed.

Lemma overwrite_version_keeps_record_valid_witness :
  is_valid (v "1.0.1 ") = false /\
  SemVerFile.overwrite_version (sample_world "1.0.1 " patch 0) (v "1.0.1 ")
    {| version_txt := Some "1.0.0" |}
  = (Exit InvalidSemVerFormat, {| version_txt := Some "1.0.0" |}).
Proof.
  split; [reflexivity|].
  apply (overwrite_version_keeps_record_valid
           (sample_world "1.0.1 " patch 0) (v "1.0.1 ")
           {| version_txt := Some "1.0.0" |}).
  reflexivity.
Defined.

(** ** Which texts the validity gate turns down *)

(** C2, as stated, fails on a text with a trailing newline: 1.2.3 followed
    by one newline is not a whole-text match of the pattern, and [is_valid]
    accepts it. *)
Lemma trailing_newline_accepted :
  ~ semver_text ("1.2.3" ++ newline) /\ is_valid (v ("1.2.3" ++ newline)) = true.
Proof.
  split; [|reflexivity].
  intros H. apply semver_text_dec in H. discriminate H.
Qed.

(** Texts of the kinds the specification names, all turned down: white
    space around the version, a second newline, a fourth component, a missing
    component, a leading zero in any component, a sign. *)
Example malformed_examples :
  map (fun s => is_valid (v s))
    [" 1.2.3"; "1.2.3 "; "1.2.3" ++ newline ++ newline; newline ++ "1.2.3";
     "1.2.3.4"; "1.2"; "01.2.3"; "1.02.3"; "1.2.03"; "1.2.-3"; ""]
  = [false; false; false; false; false; false; false; false; false; false; false].
Proof. reflexivity. Qed.

(** C2, amended.  A text that is neither a whole-text match of the pattern
    nor such a match followed by one newline is turned down by [is_valid].
    As the tag of a run it keeps the run from succeeding and from touching
    the record, and the run that reaches the gate of the tag, or of the
    record when the text is the record's line, ends there with the message
    of that gate. *)
Theorem malformed_text_rejected (s : string) :
  ~ semver_text s ->
  (forall t, s = t ++ newline -> ~ semver_text t) ->
  is_valid (v s) = false /\
  (forall w st,
      tag (argv w) = s -> fst (main w st) <> Done tt /\ snd (main w st) = st) /\
  (forall w st content current,
      existsb (String.eqb (version (argv w))) version_increase_types = true ->
      version_txt st = Some content ->
      readlines content = [current] ->
      is_valid (v current) = true ->
      tag (argv w) = s ->
      main w st = (Exit InvalidTagSemVer, st)) /\
  (forall w st content,
      existsb (String.eqb (version (argv w))) version_increase_types = true ->
      version_txt st = Some content ->
      readlines content = [s] ->
      main w st = (Exit InvalidVersionTxtSemVer, st)).
Proof.
  intros N1 N2.
  assert (V : is_valid (v s) = false).
  { destruct (is_valid (v s)) eqn:V; [|reflexivity].
    apply is_valid_spec in V. destruct V as [V|(t & E & V)].
    - contradiction.
    - now destruct (N2 t E). }
  split; [assumption|]. split; [|split].
  - intros w st E.
    destruct (main_outcome w st) as [(_ & _ & G)|R]; [exfalso | assumption].
    destruct G as (? & ? & ? & ? & G). decompose [and] G. congruence.
  - intros w st content current Hv Hs Hl Hc E. subst s.
    now apply (main_rejects_tag w st content current).
  - intros w st content Hv Hs Hl.
    now apply (main_rejects_record w st content s).
Qed.

Lemma malformed_text_rejected_witness :
  ~ semver_text "1.2.3.4" /\
  (forall t, "1.2.3.4" = t ++ newline -> ~ semver_text t) /\
  is_valid (v "1.2.3.4") = false.
Proof.
  assert (N1 : ~ semver_text "1.2.3.4").
  { intros H. apply semver_text_dec in H. discriminate H. }
  assert (N2 : forall t, "1.2.3.4" = t ++ newline -> ~ semver_text t).
  { intros t E. apply chomp_spec in E. discriminate E. }
  split; [exact N1|]. split; [exact N2|].
  apply (malformed_text_rejected "1.2.3.4" N1 N2).
Defined.

(** ** The size of a component *)

Section Magnitude.

Lemma all_digits_zeros (k : nat) : all_digits (zeros k) = true.
Proof. induction k as [|k IH]; [reflexivity | exact IH]. Qed.

Lemma length_zeros (k : nat) : String.length (zeros k) = k.
Proof. induction k as [|k IH]; cbn; [reflexivity | now rewrite IH]. Qed.

Lemma decimal_zeros (k : nat) : decimal 0 (zeros k) = 0.
Proof. induction k as [|k IH]; [reflexivity | exact IH]. Qed.

Lemma decimal_one_and_zeros (k : nat) :
  decimal 0 (String "1" (zeros k)) = 10 ^ Z.of_nat k.
Proof.
  cbn [decimal]. rewrite decimal_shift, decimal_zeros, length_zeros.
  change (10 * 0 + digit_value "1") with 1. lia.
Qed.

Lemma fits_one_and_zeros (k : nat) :
  fits (String "1" (zeros k)) = (Z.of_nat k <=? 4299).
Proof.
  unfold fits, int_max_str_digits. cbn [String.length].
  rewrite length_zeros, Nat2Z.inj_succ.
  destruct (Z.leb_spec (Z.succ (Z.of_nat k)) 4300),
    (Z.leb_spec (Z.of_nat k) 4299); try reflexivity; lia.
Qed.

Lemma one_and_zeros_component (k : nat) :
  numeric_component (String "1" (zeros k)) = true.
Proof. cbn. apply all_digits_zeros. Qed.

End Magnitude.

(** C4, as stated, fails: the program does not compare a component with
    any bound.  The major component 9223372036854775808 lies beyond the largest signed 64-bit
    integer; the text is valid, [parse] returns the number, and the major
    bump from 9223372036854775807.0.0 runs to the end and is recorded. *)
Lemma component_beyond_platform_limit :
  is_valid (v "9223372036854775808.0.0") = true /\
  parse (v "9223372036854775808.0.0") = Done (9223372036854775808, 0, 0) /\
  platform_int_max < 9223372036854775808 /\
  main (sample_world "9223372036854775808.0.0" major 0)
    {| version_txt := Some "9223372036854775807.0.0" |}
  = (Done tt, {| version_txt := Some "9223372036854775808.0.0" |}).
Proof. repeat split; vm_compute; reflexivity. Qed.

(** C4, amended.  No component is turned down for its size.  The text made
    of 1 followed by [k] zeros, then [.0.0], is valid for every [k]; up to
    4300 digits ([k] at most 4299) [parse] returns [(10 ^ k, 0, 0)], far
    above the largest machine integer, and with more digits [int] raises
    [ValueError].  On no valid text does [parse] end with a message of the
    program. *)
Theorem component_size_not_checked :
  (forall k : nat,
      (k <= 4299)%nat ->
      is_valid (v (String "1" (zeros k) ++ ".0.0")) = true /\
      parse (v (String "1" (zeros k) ++ ".0.0")) = Done (10 ^ Z.of_nat k, 0, 0)) /\
  (forall k : nat,
      (4300 <= k)%nat ->
      is_valid (v (String "1" (zeros k) ++ ".0.0")) = true /\
      parse (v (String "1" (zeros k) ++ ".0.0")) = Raise ValueError) /\
  (forall x m, is_valid x = true -> parse x <> Exit m).
Proof.
  assert (V : forall k : nat, is_valid (v (String "1" (zeros k) ++ ".0.0")) = true).
  { intros k. apply is_valid_spec. left. exists (String "1" (zeros k)), "0", "0".
    repeat split; auto using one_and_zeros_component. }
  assert (P : forall k : nat,
             parse (v (String "1" (zeros k) ++ ".0.0"))
             = if fits (String "1" (zeros k))
               then Done (10 ^ Z.of_nat k, 0, 0) else Raise ValueError).
  { intros k. rewrite <- decimal_one_and_zeros.
    pose proof (parse_semver_text (String "1" (zeros k)) "0" "0"
                  (one_and_zeros_component k) eq_refl eq_refl) as E.
    change (fits "0") with true in E. rewrite !andb_true_r in E. exact E. }
  split; [|split].
  - intros k Hk. split; [apply V|]. rewrite P, fits_one_and_zeros.
    destruct (Z.leb_spec (Z.of_nat k) 4299); [reflexivity | lia].
  - intros k Hk. split; [apply V|]. rewrite P, fits_one_and_zeros.
    destruct (Z.leb_spec (Z.of_nat k) 4299); [lia | reflexivity].
  - intros x m H. destruct (parse_accepted x H) as (a & b & c & _ & _ & _ & _ & ->).
    destruct (fits a && fits b && fits c); discriminate.
Qed.

Lemma component_size_not_checked_witness :
  (3 <= 4299)%nat /\
  is_valid (v "1000.0.0") = true /\ parse (v "1000.0.0") = Done (1000, 0, 0).
Proof.
  split; [lia|].
  apply (proj1 component_size_not_checked 3%nat). lia.
Defined.

(** C10, as stated, fails on a component of more than 4300 digits: the text
    made of 1 followed by 4300 zeros, then [.0.0], is valid, and [int]
    refuses its first component, so [parse] raises [ValueError]. *)
Lemma valid_text_makes_int_raise :
  is_valid (v (String "1" (zeros 4300) ++ ".0.0")) = true /\
  parse (v (String "1" (zeros 4300) ++ ".0.0")) = Raise ValueError.
Proof.
  split.
  - apply is_valid_spec. left. exists (String "1" (zeros 4300)), "0", "0".
    split; [apply one_and_zeros_component|]. repeat split.
  - pose proof (parse_semver_text (String "1" (zeros 4300)) "0" "0"
                  (one_and_zeros_component 4300) eq_refl eq_refl) as E.
    rewrite fits_one_and_zeros in E. exact E.
Qed.

(** C10, amended.  A text accepted by [is_valid] never takes [parse] to its
    error exit: the text is three components, with or without a final
    newline, and [parse] returns their three values, none of them negative,
    when each component has at most 4300 digits, and raises the [ValueError]
    of [int] when one has more. *)
Theorem parse_on_valid_text (x : SemVersion) :
  is_valid x = true ->
  (forall m, parse x <> Exit m) /\
  exists a b c,
    numeric_component a = true /\ numeric_component b = true /\
    numeric_component c = true /\
    (raw x = a ++ "." ++ b ++ "." ++ c \/
     raw x = (a ++ "." ++ b ++ "." ++ c) ++ newline) /\
    (fits a = true -> fits b = true -> fits c = true ->
     parse x = Done (decimal 0 a, decimal 0 b, decimal 0 c) /\
     0 <= decimal 0 a /\ 0 <= decimal 0 b /\ 0 <= decimal 0 c) /\
    (fits a = false \/ fits b = false \/ fits c = false ->
     parse x = Raise ValueError).
Proof.
  intros H. destruct (parse_accepted x H) as (a & b & c & Ha & Hb & Hc & T & P).
  split.
  - intros m. rewrite P. destruct (fits a && fits b && fits c); discriminate.
  - exists a, b, c. repeat (split; [assumption|]). split.
    + intros Fa Fb Fc. rewrite P, Fa, Fb, Fc.
      auto using component_value_nonneg.
    + intros F. rewrite P.
      destruct F as [F|[F|F]]; rewrite F, ?andb_false_r; reflexivity.
Qed.

Lemma parse_on_valid_text_witness :
  is_valid (v "10.0.7") = true /\ forall m, parse (v "10.0.7") <> Exit m.
Proof.
  split; [reflexivity|].
  apply (parse_on_valid_text (v "10.0.7")). reflexivity.
Defined.


(** * Further properties of the program *)

(** ** [parse] on its own *)

Section ParseAlone.

Lemma length_split (sep : ascii) (s : string) :
  List.length (split sep s) = S (count_char sep s).
Proof.
  induction s as [|c s IH]; cbn [split count_char]; [reflexivity|].
  destruct (Ascii.eqb c sep); cbn [List.length]; [now rewrite IH|].
  destruct (split sep s) as [|piece pieces]; [discriminate IH | exact IH].
Qed.

End ParseAlone.

(** X1.  [parse] takes its error exit exactly when the text does not hold
    exactly two dots, and it has no other exit: with two dots it returns
    three integers or raises [ValueError]. *)
Theorem parse_error_exit (x : SemVersion) :
  (parse x = Exit InvalidSemVerFormat <-> count_char "." (raw x) <> 2%nat) /\
  (forall m, parse x = Exit m -> m = InvalidSemVerFormat) /\
  (count_char "." (raw x) = 2%nat ->
   (exists a b c, parse x = Done (a, b, c)) \/ parse x = Raise ValueError).
Proof.
  pose proof (length_split "." (raw x)) as L. unfold parse.
  destruct (split "." (raw x)) as [|p0 [|p1 [|p2 [|p3 l]]]]; cbn [List.length] in L.
  1,2,3,5: (split; [split; [intros _; lia | reflexivity]|];
            split; [now intros m [= <-] | intros E; lia]).
  assert (C : count_char "." (raw x) = 2%nat) by lia.
  destruct (py_int p0), (py_int p1), (py_int p2);
    (split; [split; [discriminate | intros N; now contradiction N]|];
     split; [discriminate | intros _; eauto]).
Qed.

Lemma parse_error_exit_witness :
  count_char "." (raw (v "1.2.-3")) = 2%nat /\
  ((exists a b c, parse (v "1.2.-3") = Done (a, b, c)) \/
   parse (v "1.2.-3") = Raise ValueError).
Proof.
  split; [reflexivity|].
  apply (parse_error_exit (v "1.2.-3")). reflexivity.
Defined.

(** X2.  On a text made of three components separated by dots, each of
    at most 4300 digits, with or without a final newline, [parse] returns the
    numbers the three runs of digits denote. *)
Theorem parse_reads_components (a b c : string) :
  numeric_component a = true ->
  numeric_component b = true ->
  numeric_component c = true ->
  fits a = true -> fits b = true -> fits c = true ->
  parse (v (a ++ "." ++ b ++ "." ++ c))
  = Done (decimal 0 a, decimal 0 b, decimal 0 c) /\
  parse (v ((a ++ "." ++ b ++ "." ++ c) ++ newline))
  = Done (decimal 0 a, decimal 0 b, decimal 0 c).
Proof.
  intros Ha Hb Hc Fa Fb Fc.
  rewrite parse_semver_text, parse_semver_text_newline by assumption.
  now rewrite Fa, Fb, Fc.
Qed.

Lemma parse_reads_components_witness :
  numeric_component "12" = true /\ numeric_component "0" = true /\
  numeric_component "305" = true /\
  fits "12" = true /\ fits "0" = true /\ fits "305" = true /\
  parse (v "12.0.305") = Done (12, 0, 305).
Proof.
  repeat (split; [reflexivity|]).
  apply (parse_reads_components "12" "0" "305"); reflexivity.
Defined.

(** X3.  Two texts made of three components in the digits 0..9, without
    leading zeros and with or without a final newline, that [parse] reads as
    the same three numbers are the same text, up to that final newline. *)
Theorem canonical_texts_determined_by_components
  (x y : SemVersion) (n : Z * Z * Z) :
  accepted_text (raw x) -> accepted_text (raw y) ->
  parse x = Done n -> parse y = Done n ->
  raw x = raw y \/ raw x = raw y ++ newline \/ raw y = raw x ++ newline.
Proof.
  intros Hx Hy Px Py.
  apply is_valid_spec in Hx, Hy.
  destruct (parse_accepted x Hx) as (a & b & c & Ha & Hb & Hc & Tx & Px').
  destruct (parse_accepted y Hy) as (a' & b' & c' & Ha' & Hb' & Hc' & Ty & Py').
  rewrite Px in Px'. rewrite Py in Py'.
  destruct (fits a && fits b && fits c); [|discriminate].
  destruct (fits a' && fits b' && fits c'); [|discriminate].
  rewrite Px' in Py'. injection Py' as Ea Eb Ec.
  apply component_value_inj in Ea, Eb, Ec; try assumption. subst a' b' c'.
  destruct Tx as [Tx|Tx], Ty as [Ty|Ty]; rewrite Tx, Ty; auto.
Qed.

Lemma canonical_texts_determined_by_components_witness :
  accepted_text (raw (v "1.20.3")) /\
  accepted_text (raw (v ("1.20.3" ++ newline))) /\
  parse (v "1.20.3") = Done (1, 20, 3) /\
  parse (v ("1.20.3" ++ newline)) = Done (1, 20, 3) /\
  (raw (v "1.20.3") = raw (v ("1.20.3" ++ newline)) \/
   raw (v "1.20.3") = raw (v ("1.20.3" ++ newline)) ++ newline \/
   raw (v ("1.20.3" ++ newline)) = raw (v "1.20.3") ++ newline).
Proof.
  assert (A1 : accepted_text (raw (v "1.20.3")))
    by (apply is_valid_spec; reflexivity).
  assert (A2 : accepted_text (raw (v ("1.20.3" ++ newline))))
    by (apply is_valid_spec; reflexivity).
  split; [exact A1|]. split; [exact A2|].
  repeat (split; [reflexivity|]).
  apply (canonical_texts_determined_by_components
           (v "1.20.3") (v ("1.20.3" ++ newline)) (1, 20, 3) A1 A2);
    reflexivity.
Defined.

(** ** The transition check as the program runs it *)

Ltac eqb_cases Same :=
  repeat match goal with
         | |- context [(?a =? ?b)%string] => destruct (String.eqb_spec a b)
         | |- context [?a =? ?b] => destruct (Z.eqb_spec a b)
         end;
  cbn [negb andb]; intros;
  try match goal with e : raw _ = raw _ |- _ => pose proof (Same e) end;
  try discriminate; try tauto; try (repeat split; lia); try congruence.

(** X4.  On a [patch] bump the check passes exactly when the majors agree
    and the proposed patch is the current patch plus one; neither minor is
    looked at.  When the texts differ, differing majors end the run with the
    message of the [patch] preconditions, and equal majors with a patch that
    is not the successor end it with the message of the increment check. *)
Theorem patch_bump_rule
  (current_version new_version : SemVersion) (args : CmdArgs)
  (cmaj cmin cpatch nmaj nmin npatch : Z) :
  version args = bump_name patch ->
  parse current_version = Done (cmaj, cmin, cpatch) ->
  parse new_version = Done (nmaj, nmin, npatch) ->
  (validate_semver_change current_version new_version args = Done tt <->
   cmaj = nmaj /\ npatch = cpatch + 1) /\
  (raw current_version <> raw new_version -> cmaj <> nmaj ->
   validate_semver_change current_version new_version args
   = Exit (InvalidChange patch)) /\
  (raw current_version <> raw new_version -> cmaj = nmaj -> npatch <> cpatch + 1 ->
   validate_semver_change current_version new_version args
   = Exit (InvalidIncrease (raw current_version) (raw new_version))).
Proof.
  intros Hv Pc Pn.
  rewrite (validate_by_kind _ _ _ _ _ _ _ _ _ Pc Pn patch Hv).
  pose proof (same_raw_same_components _ _ _ _ _ _ _ _ Pc Pn) as Same.
  split; [split|split].
  - eqb_cases Same.
  - intros (E1 & E2). eqb_cases Same.
  - intros D N. eqb_cases Same.
  - intros D E1 N. eqb_cases Same.
Qed.

Lemma patch_bump_rule_witness :
  version (bump_args (v "4.0.10") patch) = bump_name patch /\
  parse (v "4.7.9") = Done (4, 7, 9) /\
  parse (v "4.0.10") = Done (4, 0, 10) /\
  validate_semver_change (v "4.7.9") (v "4.0.10") (bump_args (v "4.0.10") patch)
  = Done tt.
Proof.
  repeat (split; [reflexivity|]).
  apply (patch_bump_rule (v "4.7.9") (v "4.0.10") (bump_args (v "4.0.10") patch)
           4 7 9 4 0 10); try reflexivity.
  split; reflexivity.
Defined.

(** X5.  A check that passes guarantees that the declared kind is one of
    [major], [minor], [patch], that the two texts differ, that both parse,
    and that the component the kind names went up by exactly one.  So an
    unknown kind never passes. *)
Theorem passing_check_guarantees
  (current_version new_version : SemVersion) (args : CmdArgs) :
  validate_semver_change current_version new_version args = Done tt ->
  exists b cur new,
    version args = bump_name b /\
    raw current_version <> raw new_version /\
    parse current_version = Done cur /\
    parse new_version = Done new /\
    snd (compared b cur new) = fst (compared b cur new) + 1.
Proof.
  unfold validate_semver_change.
  destruct (String.eqb_spec (raw current_version) (raw new_version)) as [|D];
    [discriminate|].
  destruct (parse current_version) as [[[cmaj cmin] cpatch]| |]; cbn [bind];
    try discriminate.
  destruct (parse new_version) as [[[nmaj nmin] npatch]| |]; cbn [bind];
    try discriminate.
  destruct (String.eqb_spec (version args) "patch") as [E|N1].
  - rewrite E. cbn [String.eqb Ascii.eqb Bool.eqb].
    destruct (negb ((cmaj =? nmaj) && (cmin =? cmin))); cbn [bind]; [discriminate|].
    destruct (Z.eqb_spec (cpatch + 1) npatch); cbn [negb]; [|discriminate].
    intros _. exists patch, (cmaj, cmin, cpatch), (nmaj, nmin, npatch).
    cbn [compared fst snd]. repeat split; auto.
  - cbn [bind].
    destruct (String.eqb_spec (version args) "minor") as [E|N2].
    + rewrite E. cbn [String.eqb Ascii.eqb Bool.eqb].
      destruct (negb ((cmaj =? nmaj) && (npatch =? 0))); cbn [bind]; [discriminate|].
      destruct (Z.eqb_spec (cmin + 1) nmin); cbn [negb]; [|discriminate].
      intros _. exists minor, (cmaj, cmin, cpatch), (nmaj, nmin, npatch).
      cbn [compared fst snd]. repeat split; auto.
    + cbn [bind].
      destruct (String.eqb_spec (version args) "major") as [E|N3].
      * destruct (negb ((cmin =? 0) && (npatch =? 0))); cbn [bind]; [discriminate|].
        destruct (Z.eqb_spec (cmaj + 1) nmaj); cbn [negb]; [|discriminate].
        intros _. exists major, (cmaj, cmin, cpatch), (nmaj, nmin, npatch).
        cbn [compared fst snd]. repeat split; auto.
      * cbn [bind negb]. change (0 + 1 =? 0) with false. cbn [negb]. discriminate.
Qed.

Lemma passing_check_guarantees_witness :
  validate_semver_change (v "1.2.5") (v "1.3.0") (bump_args (v "1.3.0") minor) = Done tt /\
  exists b cur new,
    version (bump_args (v "1.3.0") minor) = bump_name b /\
    raw (v "1.2.5") <> raw (v "1.3.0") /\
    parse (v "1.2.5") = Done cur /\
    parse (v "1.3.0") = Done new /\
    snd (compared b cur new) = fst (compared b cur new) + 1.
Proof.
  split; [reflexivity|].
  apply (passing_check_guarantees (v "1.2.5") (v "1.3.0") (bump_args (v "1.3.0") minor)).
  reflexivity.
Defined.

(** X6.  An accepted [minor] or [major] bump moves to a strictly later
    version in the order by major, minor, patch.  An accepted [patch] bump
    does so exactly when the minor did not go down. *)
Theorem accepted_bump_and_version_order
  (current_version new_version : SemVersion) (args : CmdArgs) (b : BumpKind)
  (cmaj cmin cpatch nmaj nmin npatch : Z) :
  version args = bump_name b ->
  parse current_version = Done (cmaj, cmin, cpatch) ->
  parse new_version = Done (nmaj, nmin, npatch) ->
  validate_semver_change current_version new_version args = Done tt ->
  match b with
  | patch => version_lt (cmaj, cmin, cpatch) (nmaj, nmin, npatch) <-> cmin <= nmin
  | _ => version_lt (cmaj, cmin, cpatch) (nmaj, nmin, npatch)
  end.
Proof.
  intros Hv Pc Pn.
  rewrite (validate_by_kind _ _ _ _ _ _ _ _ _ Pc Pn b Hv).
  destruct (raw current_version =? raw new_version)%string; [discriminate|].
  unfold version_lt.
  destruct b;
    repeat match goal with
           | |- context [?a =? ?b] => destruct (Z.eqb_spec a b)
           end;
    cbn [negb andb]; intros; try discriminate; lia.
Qed.

Lemma accepted_bump_and_version_order_witness :
  version (bump_args (v "4.0.10") patch) = bump_name patch /\
  parse (v "4.7.9") = Done (4, 7, 9) /\
  parse (v "4.0.10") = Done (4, 0, 10) /\
  validate_semver_change (v "4.7.9") (v "4.0.10") (bump_args (v "4.0.10") patch)
  = Done tt /\
  (version_lt (4, 7, 9) (4, 0, 10) <-> 7 <= 0).
Proof.
  repeat (split; [reflexivity|]).
  apply (accepted_bump_and_version_order (v "4.7.9") (v "4.0.10")
           (bump_args (v "4.0.10") patch) patch 4 7 9 4 0 10); reflexivity.
Defined.

(** ** How a run can end *)

Section RunFacts.

Ltac unfold_main :=
  unfold main, SemVerFile.get_current_sem_ver, SemVerFile.overwrite_version,
    Terminal.login, Terminal.build, Terminal.show_image, Terminal.push,
    Dotenv.load_dotenv, get_dockerhub_creds, get_cmd_args,
    StaticConfig.semver_file, StaticConfig.dotenv_file,
    StaticConfig.dockerfile_path, StaticConfig.build_context,
    _get_rel_file_path, path_exists, bindP, exit, lift, ret.

Ltac case_inner :=
  match goal with
  | |- context [match ?x with _ => _ end] =>
      lazymatch x with
      | context [match _ with _ => _ end] => fail
      | _ => destruct x eqn:?
      end
  end.

Local Arguments is_valid : simpl never.
Local Arguments validate_semver_change : simpl never.
Local Arguments readlines : simpl never.
Local Arguments _get_full_image_name : simpl never.
Local Arguments existsb : simpl never.

(** Between two valid versions the check returns, ends with one of its own
    three messages, or lets the [ValueError] of [int] through; [parse]
    causes no exit. *)
Lemma validate_on_valid (x y : SemVersion) (args : CmdArgs) :
  is_valid x = true -> is_valid y = true ->
  validate_semver_change x y args = Done tt \/
  validate_semver_change x y args = Exit VersionsMatching \/
  (exists b, validate_semver_change x y args = Exit (InvalidChange b)) \/
  validate_semver_change x y args = Exit (InvalidIncrease (raw x) (raw y)) \/
  validate_semver_change x y args = Raise ValueError.
Proof.
  intros Hx Hy.
  destruct (parse_accepted x Hx) as (a & b & c & _ & _ & _ & _ & Px).
  destruct (parse_accepted y Hy) as (a' & b' & c' & _ & _ & _ & _ & Py).
  unfold validate_semver_change. rewrite Px, Py.
  destruct (String.eqb_spec (raw x) (raw y)); [auto|].
  destruct (fits a && fits b && fits c); cbn [bind]; [|auto 6].
  destruct (fits a' && fits b' && fits c'); cbn [bind]; [|auto 6].
  repeat match goal with
         | |- context [(?s =? ?t)%string] => destruct (String.eqb_spec s t)
         | |- context [?s =? ?t] => destruct (Z.eqb_spec s t)
         end;
    cbn [negb andb bind]; eauto 7;
    repeat match goal with
           | |- context [?s =? ?t] => destruct (Z.eqb_spec s t)
           end;
    cbn [negb andb bind]; eauto 7.
Qed.

(** Every way [main] can end, short of success. *)
Lemma main_failure_cases (w : World) (st : Store) :
  fst (main w st) = Done tt \/
  (fst (main w st) = Exit InvalidVersionArg /\
   existsb (String.eqb (version (argv w))) version_increase_types = false) \/
  (exists m, fst (main w st) = Exit m /\ m <> InvalidVersionArg /\
             m <> InvalidSemVerFormat /\
             existsb (String.eqb (version (argv w))) version_increase_types = true) \/
  (exists e, fst (main w st) = Raise e).
Proof.
  destruct (argv w) as [t ver] eqn:Eargv.
  unfold_main. rewrite Eargv. simpl.
  repeat (case_inner; simpl);
    repeat match goal with
           | H : negb _ = false |- _ => apply negb_false_iff in H
           | H : negb _ = true |- _ => apply negb_true_iff in H
           end;
    try (left; reflexivity);
    try (right; left; split; [reflexivity | assumption]);
    try (right; right; left; eexists; split; [reflexivity|];
         split; [discriminate|]; split; [discriminate | assumption]);
    try (right; right; right; eexists; reflexivity).
  match goal with
  | Hx : is_valid ?x = true, Hy : is_valid ?y = true,
    E : validate_semver_change ?x ?y ?a = _ |- _ =>
      destruct (validate_on_valid x y a Hx Hy) as [V|[V|[[b V]|[V|V]]]];
      rewrite V in E;
      first [ discriminate E
            | inversion E; subst; right; right; left; eexists;
              split; [reflexivity|];
              split; [discriminate|]; split; [discriminate | assumption] ]
  end.
Qed.

(** A run whose tag is already the record stops at the no-change gate. *)
Lemma main_on_committed_tag (w : World) :
  existsb (String.eqb (version (argv w))) version_increase_types = true ->
  is_valid (v (tag (argv w))) = true ->
  main w {| version_txt := Some (tag (argv w)) |}
  = (Exit VersionsMatching, {| version_txt := Some (tag (argv w)) |}).
Proof.
  intros Hv Ht.
  pose proof (readlines_accepted _ (proj1 (is_valid_spec _) Ht)) as Hl.
  unfold v in *. cbn [raw] in Hl.
  unfold_main. cbv beta zeta. rewrite Hv. cbn. rewrite Hl. cbn.
  rewrite Ht. cbn. unfold validate_semver_change. cbn [raw].
  now rewrite String.eqb_refl.
Qed.

Lemma known_kind (s : string) :
  existsb (String.eqb s) version_increase_types = true <-> exists b, s = bump_name b.
Proof.
  unfold version_increase_types. cbn [existsb]. split.
  - intros H. repeat (apply orb_true_iff in H as [H|H]);
      try discriminate; apply String.eqb_eq in H.
    + now exists major.
    + now exists minor.
    + now exists patch.
  - intros [[] ->]; reflexivity.
Qed.

End RunFacts.

(** X7.  The message [invalid sem-ver format], which [parse] and
    [overwrite_version] print on their own, is never the end of a run: the
    two validity gates of [main] come first, so [parse] only sees texts with
    two dots and [overwrite_version] only a version already found valid. *)
Theorem main_never_ends_on_format_message (w : World) (st : Store) :
  fst (main w st) <> Exit InvalidSemVerFormat.
Proof.
  destruct (main_failure_cases w st) as [D|[[D _]|[(m & D & _ & N & _)|[e D]]]];
    rewrite D; try discriminate. congruence.
Qed.

(** X8.  A run ends with the message about the [version] argument exactly
    when that argument is none of [major], [minor], [patch]; this gate comes
    before every other, so the record and the tools play no part in it. *)
Theorem main_rejects_unknown_kind (w : World) (st : Store) :
  fst (main w st) = Exit InvalidVersionArg <->
  (forall b, version (argv w) <> bump_name b).
Proof.
  split.
  - intros E b Hb.
    assert (K : existsb (String.eqb (version (argv w))) version_increase_types = true)
      by (apply known_kind; now exists b).
    destruct (main_failure_cases w st) as [D|[[_ F]|[(m & D & N & _)|[e D]]]];
      congruence.
  - intros N.
    assert (K : existsb (String.eqb (version (argv w))) version_increase_types = false).
    { destruct (existsb (String.eqb (version (argv w))) version_increase_types) eqn:K;
        [|reflexivity].
      apply known_kind in K as [b K]. now destruct (N b). }
    unfold main, get_cmd_args, bindP, exit, lift. now rewrite K.
Qed.

Lemma main_rejects_unknown_kind_witness :
  fst (main {| argv := {| tag := "1.0.1"; version := "Patch" |};
               dockerfile_exists := true;
               project_root_exists := true;
               dotenv_exists := true;
               DOCKERHUB_ID := Some "acc";
               DOCKERHUB_PW := Some "secret";
               docker_login := fun _ => 0;
               docker_build := fun _ => 0;
               docker_image_ls := 0;
               docker_push := fun _ => 0 |}
         {| version_txt := Some "1.0.0" |})
  = Exit InvalidVersionArg.
Proof.
  apply main_rejects_unknown_kind. intros []; discriminate.
Defined.

(** X9.  A run that succeeded cannot be repeated: started again with the
    same arguments on the record it left, it stops at the no-change gate and
    leaves the record as it is. *)
Theorem successful_run_not_repeatable (w : World) (st : Store) :
  fst (main w st) = Done tt ->
  main w (snd (main w st)) = (Exit VersionsMatching, snd (main w st)).
Proof.
  intros D.
  destruct (main_outcome w st) as [(_ & S & G)|[F _]]; [|contradiction].
  rewrite S. destruct G as (? & ? & ? & ? & K & _ & _ & _ & V & _).
  now apply main_on_committed_tag.
Qed.

Lemma successful_run_not_repeatable_witness :
  fst (main (sample_world "1.0.1" patch 0) {| version_txt := Some "1.0.0" |})
  = Done tt /\
  main (sample_world "1.0.1" patch 0)
    (snd (main (sample_world "1.0.1" patch 0) {| version_txt := Some "1.0.0" |}))
  = (Exit VersionsMatching,
     snd (main (sample_world "1.0.1" patch 0) {| version_txt := Some "1.0.0" |})).
Proof.
  split; [reflexivity|].
  apply (successful_run_not_repeatable (sample_world "1.0.1" patch 0)
           {| version_txt := Some "1.0.0" |}).
  reflexivity.
Defined.

(** ** Which records are read as a version *)

Section RecordFacts.

Lemma length_append (s t : string) :
  String.length (s ++ t) = (String.length s + String.length t)%nat.
Proof. induction s as [|c s IH]; cbn; [reflexivity | now rewrite IH]. Qed.

Lemma append_inv_tail (u : string) :
  forall s t, s ++ u = t ++ u -> s = t.
Proof.
  induction s as [|c s IH]; intros [|d t] E; cbn in E.
  - reflexivity.
  - apply (f_equal String.length) in E. cbn in E. rewrite length_append in E. lia.
  - apply (f_equal String.length) in E. cbn in E. rewrite length_append in E. lia.
  - injection E as -> E. f_equal. now apply IH.
Qed.

Lemma readlines_from_lf (cur : list ascii) (s : string) :
  readlines_from cur (String "010" s)
  = rev_append_string cur newline :: readlines_from [] s.
Proof. reflexivity. Qed.

Lemma readlines_from_crlf (cur : list ascii) (s : string) :
  readlines_from cur (String "013" (String "010" s))
  = rev_append_string cur newline :: readlines_from [] s.
Proof. reflexivity. Qed.

Lemma readlines_from_cr (cur : list ascii) (s : string) :
  (forall s', s <> String "010" s') ->
  readlines_from cur (String "013" s)
  = rev_append_string cur newline :: readlines_from [] s.
Proof.
  intros N. destruct s as [|d s]; [reflexivity|].
  destruct d as [[] [] [] [] [] [] [] []]; try reflexivity.
  now destruct (N s).
Qed.

Lemma readlines_from_nonempty (s : string) :
  forall cur, cur <> [] \/ s <> "" -> readlines_from cur s <> [].
Proof.
  induction s as [|c s IH]; intros cur N.
  - destruct cur; [destruct N; congruence | discriminate].
  - destruct (Ascii.eqb_spec c "010") as [->|Nl];
      [rewrite readlines_from_lf; discriminate|].
    destruct (Ascii.eqb_spec c "013") as [->|Nc].
    + destruct s as [|d s]; [discriminate|].
      destruct (Ascii.eqb_spec d "010") as [->|Nd];
        [rewrite readlines_from_crlf; discriminate|].
      rewrite readlines_from_cr; [discriminate | congruence].
    + rewrite readlines_from_plain_char by now apply Ascii.eqb_neq.
      apply IH. left. discriminate.
Qed.

Lemma readlines_from_nil (s : string) : readlines_from [] s = [] -> s = "".
Proof.
  intros H. destruct s as [|c s]; [reflexivity|].
  exfalso. revert H. apply readlines_from_nonempty. right. discriminate.
Qed.

(** When [readlines] delivers one line, the text is one run of characters
    free of line breaks, followed by a line end. *)
Lemma readlines_from_single (s : string) :
  forall cur l,
    readlines_from cur s = [l] ->
    exists p e,
      s = p ++ e /\ has_char "010" p = false /\ has_char "013" p = false /\
      line_end e /\ l = rev_append_string cur "" ++ p ++ delivered e.
Proof.
  unfold line_end.
  induction s as [|c s IH]; intros cur l H.
  - destruct cur as [|a cur]; [discriminate|]. injection H as <-.
    exists "", "". cbn [append delivered]. rewrite append_empty_r. auto 10.
  - destruct (Ascii.eqb_spec c "010") as [->|Nl].
    { rewrite readlines_from_lf in H. injection H as <- H.
      apply readlines_from_nil in H as ->.
      exists "", newline. rewrite rev_append_string_app. auto 10. }
    destruct (Ascii.eqb_spec c "013") as [->|Nc].
    { destruct s as [|d s].
      - injection H as <-. exists "", carriage_return.
        rewrite rev_append_string_app. auto 10.
      - destruct (Ascii.eqb_spec d "010") as [->|Nd].
        + rewrite readlines_from_crlf in H. injection H as <- H.
          apply readlines_from_nil in H as ->.
          exists "", (carriage_return ++ newline).
          rewrite rev_append_string_app. auto 10.
        + rewrite readlines_from_cr in H by congruence.
          apply (f_equal (@tl string)) in H. cbn [tl] in H.
          apply readlines_from_nil in H. discriminate H. }
    apply Ascii.eqb_neq in Nl, Nc.
    rewrite readlines_from_plain_char in H by assumption.
    apply IH in H as (p & e & -> & Hl & Hc & He & ->).
    exists (String c p), e. cbn [has_char append rev_append_string].
    rewrite Nl, Nc, Hl, Hc.
    rewrite (rev_append_string_app cur (String c "")), append_assoc. auto 10.
Qed.

Lemma readlines_from_with_cr (s : string) :
  forall cur,
    has_char "010" s = false -> has_char "013" s = false ->
    readlines_from cur (s ++ carriage_return)
    = [rev_append_string cur "" ++ s ++ newline] /\
    readlines_from cur (s ++ carriage_return ++ newline)
    = [rev_append_string cur "" ++ s ++ newline].
Proof.
  induction s as [|c s IH]; intros cur H1 H2.
  - cbn. now rewrite rev_append_string_app.
  - cbn [has_char] in H1, H2.
    apply orb_false_iff in H1 as [C1 H1]. apply orb_false_iff in H2 as [C2 H2].
    cbn [append]. rewrite !readlines_from_plain_char by assumption.
    destruct (IH (c :: cur) H1 H2) as [-> ->]. cbn [rev_append_string].
    rewrite rev_append_string_app, append_assoc. auto.
Qed.

Lemma readlines_one_line (p e : string) :
  has_char "010" p = false -> has_char "013" p = false ->
  line_end e -> p ++ e <> "" ->
  readlines (p ++ e) = [p ++ delivered e].
Proof.
  unfold readlines. intros Hl Hc [ -> | [ -> | [ -> | -> ]]] N.
  - rewrite append_empty_r in *. cbn [delivered]. rewrite append_empty_r.
    now rewrite readlines_from_without_newline by auto.
  - now rewrite readlines_from_with_newline.
  - now destruct (readlines_from_with_cr p [] Hl Hc) as [-> _].
  - now destruct (readlines_from_with_cr p [] Hl Hc) as [_ ->].
Qed.

Lemma get_current_sem_ver_on_content (w : World) (content : string) :
  SemVerFile.get_current_sem_ver w {| version_txt := Some content |}
  = (match readlines content with
     | [version] => Done {| raw := version |}
     | _ => Exit InvalidVersionTxtFormat
     end, {| version_txt := Some content |}).
Proof.
  unfold SemVerFile.get_current_sem_ver, StaticConfig.semver_file,
    _get_rel_file_path, bindP.
  cbn [path_exists version_txt negb].
  now destruct (readlines content) as [|l [|l' ls]].
Qed.

End RecordFacts.

(** X10.  Reading the record: a missing file ends the run with the message
    that names [sem-ver]; a file is read as a version exactly when it is not
    empty and holds no line break except, at most, one line end at its very
    end (line feed, carriage return, or both), and the version is then the
    whole content with that line end delivered as a line feed, not stripped;
    any other content ends the run with the message about the format of
    [version.txt].  The record itself is never changed by reading. *)
Theorem record_read_as_one_line (w : World) (content : string) (x : SemVersion) :
  SemVerFile.get_current_sem_ver w {| version_txt := None |}
  = (Exit (NotFound "sem-ver"), {| version_txt := None |}) /\
  (SemVerFile.get_current_sem_ver w {| version_txt := Some content |}
   = (Done x, {| version_txt := Some content |}) <->
   exists p e,
     content = p ++ e /\ content <> "" /\
     has_char "010" p = false /\ has_char "013" p = false /\
     line_end e /\ raw x = p ++ delivered e) /\
  ((exists y, SemVerFile.get_current_sem_ver w {| version_txt := Some content |}
              = (Done y, {| version_txt := Some content |})) \/
   SemVerFile.get_current_sem_ver w {| version_txt := Some content |}
   = (Exit InvalidVersionTxtFormat, {| version_txt := Some content |})).
Proof.
  split; [reflexivity|]. rewrite get_current_sem_ver_on_content. split.
  - split.
    + intros H. destruct (readlines content) as [|l [|l' ls]] eqn:R;
        try discriminate. injection H as <-.
      destruct (readlines_from_single content [] l R)
        as (p & e & E & Hl & Hc & He & ->).
      exists p, e. repeat split; try assumption.
      intros ->. discriminate R.
    + intros (p & e & -> & N & Hl & Hc & He & Hx).
      rewrite (readlines_one_line p e Hl Hc He N). destruct x as [r].
      cbn [raw] in Hx. now subst r.
  - destruct (readlines content) as [|l [|l' ls]]; eauto.
Qed.

Lemma record_read_as_one_line_witness :
  SemVerFile.get_current_sem_ver (sample_world "1.0.1" patch 0)
    {| version_txt := Some ("1.0.0" ++ carriage_return ++ newline) |}
  = (Done (v ("1.0.0" ++ newline)),
     {| version_txt := Some ("1.0.0" ++ carriage_return ++ newline) |}).
Proof.
  apply (record_read_as_one_line (sample_world "1.0.1" patch 0)
           ("1.0.0" ++ carriage_return ++ newline) (v ("1.0.0" ++ newline))).
  exists "1.0.0", (carriage_return ++ newline).
  unfold line_end. repeat split; auto; discriminate.
Defined.

Section RecordValidity.

Lemma semver_text_one_line (t : string) :
  semver_text t ->
  has_char "010" t = false /\ has_char "013" t = false /\ t <> "".
Proof.
  intros H. repeat split.
  - now apply semver_text_without.
  - now apply semver_text_without.
  - now apply semver_text_nonempty.
Qed.

Lemma accepted_line (t e : string) :
  semver_text t -> line_end e -> accepted_text (t ++ delivered e).
Proof.
  intros H [ -> | [ -> | [ -> | -> ]]]; cbn [delivered append carriage_return].
  - left. now rewrite append_empty_r.
  - right. now exists t.
  - right. now exists t.
  - right. now exists t.
Qed.

Lemma accepted_line_inv (p e : string) :
  has_char "010" p = false -> line_end e -> accepted_text (p ++ delivered e) ->
  semver_text p.
Proof.
  intros Hl He [H|(t & E & H)].
  - destruct He as [ -> | [ -> | [ -> | -> ]]];
      cbn [delivered append carriage_return] in H;
      try (now rewrite append_empty_r in H);
      apply (semver_text_without "010") in H; try reflexivity;
      rewrite has_char_app in H; cbn in H; rewrite orb_true_r in H; discriminate.
  - destruct He as [ -> | [ -> | [ -> | -> ]]];
      cbn [delivered append carriage_return] in E;
      try (apply append_inv_tail in E; now subst).
    rewrite append_empty_r in E. subst p.
    rewrite has_char_app in Hl. cbn in Hl. rewrite orb_true_r in Hl. discriminate.
Qed.

End RecordValidity.

(** X11.  The record passes both of its gates (one line, valid version)
    exactly when its content is three components separated by dots followed
    by nothing, a line feed, a carriage return, or a carriage return and a
    line feed; the version read is the text with that line end delivered as
    a line feed.  So a record saved with Windows line ends is accepted, and
    one with a blank or a second line is not. *)
Theorem record_accepted_as_version (w : World) (content : string) (x : SemVersion) :
  (SemVerFile.get_current_sem_ver w {| version_txt := Some content |}
   = (Done x, {| version_txt := Some content |}) /\ is_valid x = true) <->
  exists t e,
    semver_text t /\ line_end e /\ content = t ++ e /\ raw x = t ++ delivered e.
Proof.
  rewrite get_current_sem_ver_on_content. split.
  - intros [H V]. destruct (readlines content) as [|l [|l' ls]] eqn:R;
      try discriminate. injection H as <-.
    destruct (readlines_from_single content [] l R)
      as (p & e & E & Hl & Hc & He & ->).
    cbn [rev_append_string append] in *. apply is_valid_spec in V. cbn [raw] in V.
    exists p, e. repeat split; try assumption.
    now apply (accepted_line_inv p e).
  - intros (t & e & H & He & -> & Hx).
    destruct (semver_text_one_line t H) as (Hl & Hc & N).
    assert (N' : t ++ e <> "") by (destruct t; [congruence | discriminate]).
    rewrite (readlines_one_line t e Hl Hc He N'). destruct x as [r].
    cbn [raw] in Hx. subst r. split; [reflexivity|].
    apply is_valid_spec. now apply accepted_line.
Qed.

Lemma record_accepted_as_version_witness :
  SemVerFile.get_current_sem_ver (sample_world "1.0.1" patch 0)
    {| version_txt := Some ("2.10.0" ++ carriage_return) |}
  = (Done (v ("2.10.0" ++ newline)),
     {| version_txt := Some ("2.10.0" ++ carriage_return) |}) /\
  is_valid (v ("2.10.0" ++ newline)) = true.
Proof.
  apply (record_accepted_as_version (sample_world "1.0.1" patch 0)
           ("2.10.0" ++ carriage_return) (v ("2.10.0" ++ newline))).
  exists "2.10.0", carriage_return. unfold line_end.
  repeat split; auto.
  apply semver_text_dec. reflexivity.
Defined.

(** ** Image references *)

Section ImageNames.

Lemma cut_at_last (x : ascii) (p1 : string) :
  forall p2 t1 t2,
    has_char x t1 = false -> has_char x t2 = false ->
    p1 ++ String x t1 = p2 ++ String x t2 -> p1 = p2 /\ t1 = t2.
Proof.
  induction p1 as [|c p1 IH]; intros [|d p2] t1 t2 H1 H2 E; cbn [append] in E.
  - injection E as ->. auto.
  - injection E as -> ->. rewrite has_char_app in H1. cbn [has_char] in H1.
    rewrite Ascii.eqb_refl, orb_true_r in H1. discriminate.
  - injection E as -> <-. rewrite has_char_app in H2. cbn [has_char] in H2.
    rewrite Ascii.eqb_refl, orb_true_r in H2. discriminate.
  - injection E as -> E. destruct (IH p2 t1 t2 H1 H2 E) as [-> ->]. auto.
Qed.

Lemma accepted_text_without_colon (s : string) :
  accepted_text s -> has_char ":" s = false.
Proof.
  intros [H|(t & -> & H)].
  - now apply semver_text_without.
  - rewrite has_char_app, (semver_text_without ":" t) by auto. reflexivity.
Qed.

End ImageNames.

(** X12.  For valid tags the image reference built for [docker build] and
    [docker push] determines both the account and the tag: two runs that
    build the same reference have the same account id and the same tag. *)
Theorem image_name_determines_account_and_tag
  (creds1 creds2 : DockerhubCreds) (args1 args2 : CmdArgs) :
  is_valid (v (tag args1)) = true ->
  is_valid (v (tag args2)) = true ->
  _get_full_image_name creds1 args1 = _get_full_image_name creds2 args2 ->
  id creds1 = id creds2 /\ tag args1 = tag args2.
Proof.
  intros V1 V2 E.
  apply is_valid_spec, accepted_text_without_colon in V1, V2. cbn [v raw] in V1, V2.
  change (_get_full_image_name creds1 args1)
    with (id creds1 ++ "/dock-img" ++ String ":" (tag args1)) in E.
  change (_get_full_image_name creds2 args2)
    with (id creds2 ++ "/dock-img" ++ String ":" (tag args2)) in E.
  rewrite <- !append_assoc in E.
  destruct (cut_at_last ":" _ _ _ _ V1 V2 E) as [Ei Et].
  split; [|assumption]. now apply append_inv_tail in Ei.
Qed.

Lemma image_name_determines_account_and_tag_witness :
  is_valid (v "1.0.1") = true /\
  _get_full_image_name {| id := "acc"; password := "one" |} {| tag := "1.0.1"; version := "patch" |}
  = _get_full_image_name {| id := "acc"; password := "two" |} {| tag := "1.0.1"; version := "minor" |} /\
  id {| id := "acc"; password := "one" |} = id {| id := "acc"; password := "two" |} /\
  tag {| tag := "1.0.1"; version := "patch" |} = tag {| tag := "1.0.1"; version := "minor" |}.
Proof.
  split; [reflexivity|]. split; [reflexivity|].
  apply (image_name_determines_account_and_tag
           {| id := "acc"; password := "one" |} {| id := "acc"; password := "two" |}
           {| tag := "1.0.1"; version := "patch" |}
           {| tag := "1.0.1"; version := "minor" |}); reflexivity.
Defined.

(** ** Texts the validity gate lets through *)

(** X13.  Every text made of three components in the digits 0..9, each of
    them 0 or a run of digits that does not start with 0, separated by dots
    and followed by nothing or by one newline, is accepted by [is_valid],
    whatever the number of its digits. *)
Theorem canonical_texts_are_valid (a b c : string) :
  numeric_component a = true ->
  numeric_component b = true ->
  numeric_component c = true ->
  is_valid (v (a ++ "." ++ b ++ "." ++ c)) = true /\
  is_valid (v ((a ++ "." ++ b ++ "." ++ c) ++ newline)) = true.
Proof.
  intros Ha Hb Hc.
  assert (T : semver_text (a ++ "." ++ b ++ "." ++ c)) by (exists a, b, c; auto).
  split; apply is_valid_spec; cbn [v raw].
  - now left.
  - right. now exists (a ++ "." ++ b ++ "." ++ c).
Qed.

Lemma canonical_texts_are_valid_witness :
  numeric_component "0" = true /\ numeric_component "10" = true /\
  numeric_component "7" = true /\
  is_valid (v "0.10.7") = true /\ is_valid (v ("0.10.7" ++ newline)) = true.
Proof.
  repeat (split; [reflexivity|]).
  apply (canonical_texts_are_valid "0" "10" "7"); reflexivity.
Defined.
